(** * job-hunting: the Seek listing collector and the detail cache filler

    A shallow embedding of [scripts/seek_job_analysis.py] and
    [scripts/cache_ai_job_details.py], followed by the properties the
    specification states about them.

    Conventions of the embedding:
    - a Python [str] is a [string]; every character is read as the code
      point of the same number (0..255), so [lower] and [split] follow
      Python on that range;
    - a Python [int] is a [Z];
    - a [set] of strings is a [gset string], a [Counter] a [gmap string nat];
    - a [dict] built from a sorted item list is the list of its items, in
      insertion order;
    - an exception that leaves a function is an [Raise] result. *)

From Stdlib Require Import ZArith Ascii String List Lia Bool QArith.
From stdpp Require Import base decidable option list gmap strings sorting.

#[local] Set Warnings "-clear-no-such-hyp".

Local Open Scope string_scope.
Local Open Scope list_scope.
Local Open Scope Z_scope.

(* ===================================================================== *)
(** * Part I: the embedding                                              *)
(* ===================================================================== *)

(** ** Python strings *)

(** [str.isspace] for one character, on the code points below 256: the
    ASCII controls 9..13 and 28..31, the space, NEL (133) and the
    no-break space (160). This is the set [str.split()] splits on. *)
Definition isspace (c : ascii) : bool :=
  let n := N_of_ascii c in
  (((9 <=? n) && (n <=? 13)) || ((28 <=? n) && (n <=? 32))
   || (n =? 133) || (n =? 160))%N.

(** [str.lower] for one character, on the code points below 256: A..Z and
    the accented capitals 192..222, the multiplication sign 215 apart,
    move up by 32. *)
Definition lower_char (c : ascii) : ascii :=
  let n := N_of_ascii c in
  if (((65 <=? n) && (n <=? 90))
      || ((192 <=? n) && (n <=? 222) && negb (n =? 215)))%N
  then ascii_of_N (n + 32) else c.

(** [s.lower()] *)
Fixpoint lower (s : string) : string :=
  match s with
  | EmptyString => EmptyString
  | String c s' => String (lower_char c) (lower s')
  end.

(** The words of [s.split()]: [word] is the word being read, in order. *)
Fixpoint split_from (word : string) (s : string) : list string :=
  match s with
  | EmptyString => if decide (word = "") then [] else [word]
  | String c s' =>
      if isspace c
      then (if decide (word = "") then [] else [word]) ++ split_from "" s'
      else split_from (word +:+ String c "") s'
  end.

(** [s.split()] with no separator: split on whitespace runs, no empty word. *)
Definition split (s : string) : list string := split_from "" s.

(** [sep.join(parts)] *)
Definition join (sep : string) (parts : list string) : string :=
  String.concat sep parts.

(** [s.strip()] is only ever tested for emptiness in this program:
    [bool(s.strip())] holds when some character is not whitespace. *)
Fixpoint strip_nonempty (s : string) : bool :=
  match s with
  | EmptyString => false
  | String c s' => negb (isspace c) || strip_nonempty s'
  end.

(** [normalise_markdown]: [" ".join(markdown.lower().split())] *)
Definition normalise_markdown (markdown : string) : string :=
  join " " (split (lower markdown)).

(** A string without whitespace. *)
Fixpoint nospace (s : string) : bool :=
  match s with
  | EmptyString => true
  | String c s' => negb (isspace c) && nospace s'
  end.

(** What [split] produces: non-empty strings without whitespace. *)
Definition is_word (s : string) : Prop := s ≠ "" ∧ nospace s = true.

(** ** Exceptions *)

(** The exceptions this program can raise or let through. *)
Inductive exn : Type :=
  | OverflowError     (* datetime arithmetic out of range *)
  | ValueError        (* [datetime.fromisoformat] on a malformed string *)
  | TypeError         (* comparing a naive with an aware datetime *)
  | HTTPError         (* [raise_for_status] on a non-2xx response *)
  | RequestException  (* transport failure of [requests.get] *)
  | SystemExit.       (* [raise SystemExit(...)] *)

(** The outcome of a call: a value, or an exception that propagates. *)
Inductive result (A : Type) : Type :=
  | Ok (a : A)
  | Raise (e : exn).
Arguments Ok {A} a.
Arguments Raise {A} e.

#[global] Instance result_ret : MRet result := @Ok.
#[global] Instance result_bind : MBind result := λ A B f m,
  match m with
  | Ok a => f a
  | Raise e => Raise e
  end.

#[global] Instance result_fmap : FMap result := λ A B f m,
  match m with
  | Ok a => Ok (f a)
  | Raise e => Raise e
  end.

(** ** [datetime]: the proleptic Gregorian calendar of the standard library *)

Definition MAXORDINAL : Z := 3652059.   (* date.max.toordinal() *)

Definition DAYS_IN_MONTH : list Z :=
  [-1; 31; 28; 31; 30; 31; 30; 31; 31; 30; 31; 30; 31].
Definition DAYS_BEFORE_MONTH : list Z :=
  [-1; 0; 31; 59; 90; 120; 151; 181; 212; 243; 273; 304; 334].

(** [table[i]] for the two tables above (they are only indexed by months). *)
Definition index (table : list Z) (i : Z) : Z := nth (Z.to_nat i) table 0.

(** [_is_leap]: [year % 4 == 0 and (year % 100 != 0 or year % 400 == 0)] *)
Definition is_leap (year : Z) : bool :=
  (year mod 4 =? 0) && (negb (year mod 100 =? 0) || (year mod 400 =? 0)).

(** [_days_before_year]: days before January 1st of [year]. *)
Definition days_before_year (year : Z) : Z :=
  let y := year - 1 in y * 365 + y / 4 - y / 100 + y / 400.

(** [_days_in_month] *)
Definition days_in_month (year month : Z) : Z :=
  if (month =? 2) && is_leap year then 29 else index DAYS_IN_MONTH month.

(** [_days_before_month]: days in [year] before the first day of [month]. *)
Definition days_before_month (year month : Z) : Z :=
  index DAYS_BEFORE_MONTH month + (if (2 <? month) && is_leap year then 1 else 0).

(** [_ymd2ord]: the ordinal of a date, 0001-01-01 being day 1. *)
Definition ymd2ord (year month day : Z) : Z :=
  days_before_year year + days_before_month year month + day.

Definition DI400Y : Z := 146097.   (* _days_before_year(401) *)
Definition DI100Y : Z := 36524.    (* _days_before_year(101) *)
Definition DI4Y : Z := 1461.       (* _days_before_year(5) *)

(** [_ord2ymd]: the date of an ordinal, following the library step by step. *)
Definition ord2ymd (n : Z) : Z * Z * Z :=
  let n := n - 1 in
  let n400 := n / DI400Y in let n := n mod DI400Y in
  let year := n400 * 400 + 1 in
  let n100 := n / DI100Y in let n := n mod DI100Y in
  let n4 := n / DI4Y in let n := n mod DI4Y in
  let n1 := n / 365 in let n := n mod 365 in
  let year := year + n100 * 100 + n4 * 4 + n1 in
  if (n1 =? 4) || (n100 =? 4) then (year - 1, 12, 31)
  else
    let leapyear := (n1 =? 3) && (negb (n4 =? 24) || (n100 =? 3)) in
    let month := Z.shiftr (n + 50) 5 in
    let preceding :=
      index DAYS_BEFORE_MONTH month + (if (2 <? month) && leapyear then 1 else 0) in
    if n <? preceding then
      let month := month - 1 in
      let preceding :=
        preceding
        - (index DAYS_IN_MONTH month + (if (month =? 2) && leapyear then 1 else 0)) in
      (year, month, n - preceding + 1)
    else (year, month, n - preceding + 1).

(** A [datetime] object. [tzinfo] is [None] for a naive datetime and
    [Some off] for an aware one, [off] being the UTC offset of its
    fixed-offset time zone in microseconds ([timezone.utc] is [Some 0]). *)
Record datetime : Type := mk_datetime {
  year : Z;
  month : Z;
  day : Z;
  hour : Z;
  minute : Z;
  second : Z;
  microsecond : Z;
  tzinfo : option Z
}.

(** [timezone.utc] *)
Definition utc : option Z := Some 0.

(** The invariant every [datetime] object satisfies (its constructor
    raises [ValueError] otherwise). *)
Definition valid_datetime (d : datetime) : Prop :=
  1 <= year d <= 9999 ∧ 1 <= month d <= 12
  ∧ 1 <= day d <= days_in_month (year d) (month d)
  ∧ 0 <= hour d < 24 ∧ 0 <= minute d < 60 ∧ 0 <= second d < 60
  ∧ 0 <= microsecond d < 1000000.

(** [d.toordinal()] *)
Definition toordinal (d : datetime) : Z := ymd2ord (year d) (month d) (day d).

(** [d.weekday()]: Monday is 0, Sunday is 6. *)
Definition weekday (d : datetime) : Z := (toordinal d + 6) mod 7.

(** [d - timedelta(days=days)]: the time of day and the time zone are
    kept; a result outside [date.min .. date.max] raises. *)
Definition sub_days (d : datetime) (days : Z) : result datetime :=
  let o := toordinal d - days in
  if (0 <? o) && (o <=? MAXORDINAL) then
    let '(y, m, dd) := ord2ymd o in
    Ok (mk_datetime y m dd (hour d) (minute d) (second d) (microsecond d) (tzinfo d))
  else Raise OverflowError.

(** Microseconds from 0001-01-01T00:00 to the wall-clock reading of [d]. *)
Definition wall_us (d : datetime) : Z :=
  ((toordinal d * 86400 + hour d * 3600 + minute d * 60 + second d) * 1000000)
  + microsecond d.

(** [a < b] on datetimes: two aware datetimes compare as instants (the
    readings less their UTC offsets), two naive ones as readings, and a
    naive with an aware one raises [TypeError]. *)
Definition dt_lt (a b : datetime) : result bool :=
  match tzinfo a, tzinfo b with
  | Some oa, Some ob => Ok (wall_us a - oa <? wall_us b - ob)
  | None, None => Ok (wall_us a <? wall_us b)
  | _, _ => Raise TypeError
  end.

(** ** Formatting *)

(** The decimal digit of [0 <= n < 10]. *)
Definition digit (n : Z) : ascii := ascii_of_N (48 + Z.to_N n).

(** [str(n)] for [n >= 0], most significant digit first. *)
Fixpoint dec_digits (fuel : nat) (n : Z) : string :=
  match fuel with
  | O => ""
  | S fuel' =>
      if n <? 10 then String (digit n) ""
      else dec_digits fuel' (n / 10) +:+ String (digit (n mod 10)) ""
  end.
Definition str_of_Z (n : Z) : string := dec_digits (S (Z.to_nat (Z.log2 n))) n.

(** ["%0<width>d" % n] for [n >= 0]: pad with zeros on the left. *)
Fixpoint zeros (k : nat) : string :=
  match k with O => "" | S k' => String "0" (zeros k') end.
Definition fmt_0d (width : nat) (n : Z) : string :=
  let s := str_of_Z n in zeros (width - String.length s) +:+ s.

(** [d.date().isoformat()]: ["%04d-%02d-%02d" % (year, month, day)] *)
Definition date_isoformat (d : datetime) : string :=
  fmt_0d 4 (year d) +:+ "-" +:+ fmt_0d 2 (month d) +:+ "-" +:+ fmt_0d 2 (day d).

(** [week_floor]: the Monday (00:00 UTC) of the week of [date_obj]. *)
Definition week_floor (date_obj : datetime) : result datetime :=
  monday ← sub_days date_obj (weekday date_obj);
  mret (mk_datetime (year monday) (month monday) (day monday) 0 0 0 0 utc).

(** The tail of [ord2ymd], named for the proofs: the month and the day of
    the [n]-th day (from 0) of a year, [leapyear] telling its kind. *)
Definition month_day (leapyear : bool) (n : Z) : Z * Z :=
  let month := Z.shiftr (n + 50) 5 in
  let preceding :=
    index DAYS_BEFORE_MONTH month + (if (2 <? month) && leapyear then 1 else 0) in
  if n <? preceding then
    let month := month - 1 in
    let preceding :=
      preceding
      - (index DAYS_IN_MONTH month + (if (month =? 2) && leapyear then 1 else 0)) in
    (month, n - preceding + 1)
  else (month, n - preceding + 1).

(** The month and day computed for each day of a year are in range and
    count back to that day: checked on each of the 365 or 366 days. *)
Definition month_day_ok (leapyear : bool) (n : Z) : bool :=
  let '(m, d) := month_day leapyear n in
  (1 <=? m) && (m <=? 12) && (1 <=? d)
  && (d <=? (if (m =? 2) && leapyear then 29 else index DAYS_IN_MONTH m))
  && (index DAYS_BEFORE_MONTH m + (if (2 <? m) && leapyear then 1 else 0) + d
      =? n + 1).

(** ** Reading timestamps *)

(** The search API writes its timestamps as [YYYY-MM-DDTHH:MM:SSZ]. On
    strings of the form [YYYY-MM-DDTHH:MM:SS+HH:MM] (or with [-]), which is
    what [iso_to_datetime] makes of them, [datetime.fromisoformat] is the
    reader below; it is used to run the collector on concrete pages. *)
Definition digit_value (c : ascii) : option Z :=
  let n := Z.of_N (N_of_ascii c) in
  if (48 <=? n) && (n <=? 57) then Some (n - 48) else None.

Fixpoint read_digits (k : nat) (acc : Z) (s : string) : option (Z * string) :=
  match k with
  | O => Some (acc, s)
  | S k' =>
      match s with
      | String c rest =>
          v ← digit_value c; read_digits k' (acc * 10 + v) rest
      | EmptyString => None
      end
  end.

Definition expect (c : ascii) (s : string) : option string :=
  match s with
  | String c' rest => if Ascii.eqb c c' then Some rest else None
  | EmptyString => None
  end.

Definition read_sign (s : string) : option (Z * string) :=
  match s with
  | String c rest =>
      if Ascii.eqb c "+" then Some (1, rest)
      else if Ascii.eqb c "-" then Some (-1, rest) else None
  | EmptyString => None
  end.

Definition read_timestamp (s : string) : option datetime :=
  '(y, s) ← read_digits 4 0 s; s ← expect "-" s;
  '(m, s) ← read_digits 2 0 s; s ← expect "-" s;
  '(d, s) ← read_digits 2 0 s; s ← expect "T" s;
  '(hh, s) ← read_digits 2 0 s; s ← expect ":" s;
  '(mm, s) ← read_digits 2 0 s; s ← expect ":" s;
  '(ss, s) ← read_digits 2 0 s;
  '(sign, s) ← read_sign s;
  '(oh, s) ← read_digits 2 0 s; s ← expect ":" s;
  '(om, s) ← read_digits 2 0 s;
  if String.eqb s ""
     && (1 <=? y) && (1 <=? m) && (m <=? 12)
     && (1 <=? d) && (d <=? days_in_month y m)
     && (hh <? 24) && (mm <? 60) && (ss <? 60) && (oh <? 24) && (om <? 60)
  then Some (mk_datetime y m d hh mm ss 0
               (Some (sign * (oh * 3600 + om * 60) * 1000000)))
  else None.

Definition fromisoformat_basic (s : string) : result datetime :=
  match read_timestamp s with
  | Some d => Ok d
  | None => Raise ValueError
  end.

(** ** Data structures of [seek_job_analysis.py] *)

Record JobRecord : Type := mk_JobRecord {
  job_id : string;
  title : string;
  listing_date : datetime;
  location : option string;
  employer : option string;
  work_type : option string;
  description_text : option string
}.

(** One element of the ["data"] array of a search response, with the keys
    the collector reads. A key that is absent or [null] is [None]. *)
Record RawJob : Type := mk_RawJob {
  raw_id : option string;                 (* job.get("id") *)
  raw_title : option string;              (* job.get("title") *)
  raw_listingDate : option string;        (* job.get("listingDate") *)
  raw_locations : list (option string);   (* loc.get("label") of each location *)
  raw_workTypes : option (list string);   (* job.get("workTypes") *)
  raw_companyName : option string;        (* job.get("companyName") *)
  raw_advertiser_description : option string
                                  (* job.get("advertiser", {}).get("description") *)
}.

(** Truth value of an optional string: [None] and [""] are false. *)
Definition truthy (o : option string) : bool :=
  match o with
  | Some s => negb (String.eqb s "")
  | None => false
  end.

(** [a or b] on optional strings. *)
Definition py_or (a b : option string) : option string :=
  if truthy a then a else b.

(** [s or None] *)
Definition or_None (s : string) : option string :=
  if String.eqb s "" then None else Some s.

(** [value.replace("Z", "+00:00")] *)
Fixpoint replace_Z (value : string) : string :=
  match value with
  | EmptyString => EmptyString
  | String c rest =>
      if Ascii.eqb c "Z" then "+00:00" +:+ replace_Z rest
      else String c (replace_Z rest)
  end.

(** ** Effects of the collector *)

(** What the collector does to the outside world, in order. *)
Inductive event : Type :=
  | EvGet (keyword : string) (page : Z)   (* session.get(SEARCH_URL, ...) *)
  | EvSleep (seconds : Q).                (* time.sleep(...) *)

(** A search response: its status code and the ["data"] array of its JSON
    body ([payload.get("data", [])]). *)
Record response : Type := mk_response {
  status_code : Z;
  data : list RawJob
}.

(** [response.raise_for_status()] raises on 4xx and 5xx. *)
Definition raise_for_status (r : response) : result unit :=
  if (400 <=? status_code r) && (status_code r <? 600)
  then Raise HTTPError else Ok tt.

Definition REQUEST_DELAY_SECONDS : Q := 35 # 100.

(** The loop variables of [fetch_jobs_for_keyword]. *)
Record collector : Type := mk_collector {
  results : list JobRecord;
  seen_ids : gset string;
  page : Z;
  reached_cutoff : bool
}.

(** The collector before the first page. *)
Definition start : collector :=
  {| results := []; seen_ids := ∅; page := 1; reached_cutoff := false |}.

(** [reached_cutoff = True] *)
Definition mark_cutoff (st : collector) : collector :=
  {| results := results st; seen_ids := seen_ids st;
     page := page st; reached_cutoff := true |}.

(** [seen_ids.add(job_id)] and [results.append(record)] *)
Definition keep (id : string) (record : JobRecord) (st : collector) : collector :=
  {| results := results st ++ [record]; seen_ids := {[id]} ∪ seen_ids st;
     page := page st; reached_cutoff := reached_cutoff st |}.

(** [page += 1] *)
Definition turn_page (st : collector) : collector :=
  {| results := results st; seen_ids := seen_ids st;
     page := page st + 1; reached_cutoff := reached_cutoff st |}.

(** What holds of the collector all along: the identifiers of the kept
    records are distinct, they are the members of [seen_ids], and no kept
    record is older than the cutoff. *)
Definition collector_inv (cutoff : datetime) (st : collector) : Prop :=
  NoDup (job_id <$> results st)
  ∧ (∀ id, id ∈ seen_ids st ↔ id ∈ job_id <$> results st)
  ∧ Forall (λ r, dt_lt (listing_date r) cutoff = Ok false) (results st).

Section SeekJobAnalysis.

(** [datetime.fromisoformat], a function of the standard library: the
    datetime a string denotes, or [ValueError]. *)
Variable fromisoformat : string → result datetime.

(** The search endpoint: what [session.get] returns for a keyword and a
    page number, or the exception it raises. *)
Variable server : string → Z → result response.

(** [iso_to_datetime] *)
Definition iso_to_datetime (value : string) : result datetime :=
  fromisoformat (replace_Z value).

(** The [JobRecord] built from a listing that passed the checks. *)
Definition make_record (job : RawJob) (id : string) (listing_dt : datetime)
  : JobRecord :=
  let labels := omap (λ l, if truthy l then l else None) (raw_locations job) in
  {| job_id := id;
     title := default "" (py_or (raw_title job) (Some ""));
     listing_date := listing_dt;
     location := or_None (join ", " labels);
     employer := py_or (raw_companyName job) (raw_advertiser_description job);
     work_type := or_None (join ", " (default [] (raw_workTypes job)));
     description_text := None |}.

(** The body of [for job in jobs], on one listing. *)
Definition process_job (cutoff : datetime) (st : collector) (job : RawJob)
  : result collector :=
  match raw_id job with
  | Some id =>
      if String.eqb id "" || bool_decide (id ∈ seen_ids st) then Ok st
      else if negb (truthy (raw_listingDate job)) then Ok st
      else
        listing_dt ← iso_to_datetime (default "" (raw_listingDate job));
        older ← dt_lt listing_dt cutoff;
        if older : bool then Ok (mark_cutoff st)
        else Ok (keep id (make_record job id listing_dt) st)
  | None => Ok st
  end.

(** [for job in jobs: ...] *)
Fixpoint process_jobs (cutoff : datetime) (st : collector) (jobs : list RawJob)
  : result collector :=
  match jobs with
  | [] => Ok st
  | job :: rest => st' ← process_job cutoff st job; process_jobs cutoff st' rest
  end.

(** [while page <= max_pages and not reached_cutoff: ...]; the events of
    the loop come with its outcome. Every round adds one to [page], so
    [max_pages - page + 1] rounds are all the loop can make. *)
Fixpoint fetch_loop (fuel : nat) (keyword : string) (cutoff : datetime)
    (max_pages : Z) (st : collector) : list event * result (list JobRecord) :=
  match fuel with
  | O => ([], Ok (results st))
  | S fuel' =>
      if (page st <=? max_pages) && negb (reached_cutoff st) then
        match server keyword (page st) with
        | Raise e => ([EvGet keyword (page st)], Raise e)
        | Ok resp =>
            match raise_for_status resp with
            | Raise e => ([EvGet keyword (page st)], Raise e)
            | Ok _ =>
                match data resp with
                | [] => ([EvGet keyword (page st)], Ok (results st))
                | jobs =>
                    match process_jobs cutoff st jobs with
                    | Raise e => ([EvGet keyword (page st)], Raise e)
                    | Ok st' =>
                        let '(evs, r) :=
                          fetch_loop fuel' keyword cutoff max_pages (turn_page st') in
                        (EvGet keyword (page st)
                           :: EvSleep REQUEST_DELAY_SECONDS :: evs, r)
                    end
                end
            end
        end
      else ([], Ok (results st))
  end.

(** [fetch_jobs_for_keyword]: [now] is the reading of
    [datetime.now(timezone.utc)]. *)
Definition fetch_jobs_for_keyword (now : datetime) (keyword : string)
    (max_age_days : Z) (max_pages : Z) : list event * result (list JobRecord) :=
  match sub_days now max_age_days with
  | Raise e => ([], Raise e)
  | Ok cutoff =>
      fetch_loop (Z.to_nat max_pages) keyword cutoff max_pages start
  end.

(** The collector after whole pages, one after the other: what the loop
    holds when it has read [pages] and turned each. *)
Fixpoint collect_pages (cutoff : datetime) (st : collector)
    (pages : list (list RawJob)) : result collector :=
  match pages with
  | [] => Ok st
  | jobs :: rest =>
      st' ← process_jobs cutoff st jobs;
      collect_pages cutoff (turn_page st') rest
  end.

(** A listing the loop body takes to the date check and finds older than
    the cutoff: it has an identifier that is not empty and not collected
    yet, and a timestamp that reads as a datetime before [cutoff]. *)
Definition hits_cutoff (cutoff : datetime) (st : collector) (job : RawJob)
  : Prop :=
  ∃ id raw dt,
    raw_id job = Some id ∧ id ≠ "" ∧ (id ∉ seen_ids st)
    ∧ raw_listingDate job = Some raw ∧ raw ≠ ""
    ∧ iso_to_datetime raw = Ok dt ∧ dt_lt dt cutoff = Ok true.

(** A listing whose timestamp is older than the cutoff, whatever else it
    holds. *)
Definition older_than (cutoff : datetime) (job : RawJob) : Prop :=
  ∃ raw dt,
    raw_listingDate job = Some raw
    ∧ iso_to_datetime raw = Ok dt ∧ dt_lt dt cutoff = Ok true.

(** The cutoff is hit on page [k + 1] at position [i] (both from 0 here):
    the loop gets to that page without having hit the cutoff, no page
    before it being empty, and holds [st_i] when it comes to the listing
    at position [i], which hits the cutoff. *)
Definition cutoff_hit (cutoff : datetime) (pages : list (list RawJob))
    (k i : nat) (st_i : collector) : Prop :=
  ∃ st jobs job,
    Forall (λ p, p ≠ []) (take k pages)
    ∧ collect_pages cutoff start (take k pages) = Ok st
    ∧ reached_cutoff st = false
    ∧ pages !! k = Some jobs ∧ jobs !! i = Some job
    ∧ process_jobs cutoff st (take i jobs) = Ok st_i
    ∧ hits_cutoff cutoff st_i job.

(** [record] is the record the collector builds from [job]. *)
Definition record_of (job : RawJob) (record : JobRecord) : Prop :=
  ∃ id raw dt,
    raw_id job = Some id ∧ raw_listingDate job = Some raw
    ∧ iso_to_datetime raw = Ok dt ∧ record = make_record job id dt.

End SeekJobAnalysis.

(** The events of reading [n] pages in a row from page [p]: each request
    is followed by the delay. *)
Fixpoint page_events (keyword : string) (p : Z) (n : nat) : list event :=
  match n with
  | O => []
  | S n' =>
      EvGet keyword p :: EvSleep REQUEST_DELAY_SECONDS
        :: page_events keyword (p + 1) n'
  end.

(** A search endpoint that serves a fixed sequence of pages, page 1 first,
    and an empty page past the last one. *)
Definition serve (pages : list (list RawJob)) : string → Z → result response :=
  λ _ p, Ok {| status_code := 200;
               data := if p <? 1 then []
                       else default [] (pages !! Z.to_nat (p - 1)) |}.

(** ** Analysis helpers of [seek_job_analysis.py] *)

(** [counts[key] += 1] on a [Counter]: a missing key counts as 0. *)
Definition counter_incr (key : string) (counts : gmap string Z) : gmap string Z :=
  <[key := default 0 (counts !! key) + 1]> counts.

(** [sorted(items, key=...)]: the sort only ever asks whether one item is
    less than another, and puts [b] before [a] only when [b < a]. Distinct
    items of a dict never compare equal under the orders used here, so the
    sorted list does not depend on the order the dict yields them in. *)
Definition not_after {A} (lt : A → A → bool) : relation A :=
  λ a b, lt b a = false.
#[global] Instance not_after_dec {A} (lt : A → A → bool) :
  RelDecision (not_after lt).
Proof. intros a b. unfold not_after. apply _. Defined.
Definition sorted {A} (lt : A → A → bool) (items : list A) : list A :=
  merge_sort (not_after lt) items.

(** [a < b] on [(str, int)] tuples: by the string, then by the number. *)
Definition tuple_ltb (a b : string * Z) : bool :=
  match String.compare a.1 b.1 with
  | Lt => true
  | Gt => false
  | Eq => a.2 <? b.2
  end.

(** [key(a) < key(b)] for [key = lambda item: (-item[1], item[0])]. *)
Definition frequency_key_ltb (a b : string * Z) : bool :=
  match - a.2 ?= - b.2 with
  | Lt => true
  | Gt => false
  | Eq => String.ltb a.1 b.1
  end.

(** The key of a record in [summarise_weekly_counts]:
    [week_floor(record.listing_date).date().isoformat()] *)
Definition week_key (record : JobRecord) : result string :=
  monday ← week_floor (listing_date record);
  mret (date_isoformat monday).

(** The loop of [summarise_weekly_counts]. *)
Fixpoint weekly_buckets (buckets : gmap string Z) (records : list JobRecord)
  : result (gmap string Z) :=
  match records with
  | [] => Ok buckets
  | record :: rest =>
      key ← week_key record;
      weekly_buckets (counter_incr key buckets) rest
  end.

(** [summarise_weekly_counts]: the returned dict, as its items in order. *)
Definition summarise_weekly_counts (records : list JobRecord)
  : result (list (string * Z)) :=
  buckets ← weekly_buckets ∅ records;
  mret (sorted tuple_ltb (map_to_list buckets)).

(** The skill lexicon, label by label as the source lists it. *)
Definition SKILL_PATTERNS : list (string * string) :=
  [ ("python", "\bpython\b");
    ("pytorch", "\bpytorch\b");
    ("tensorflow", "\btensorflow\b");
    ("keras", "\bkeras\b");
    ("scikit-learn", "\bscikit[- ]learn\b");
    ("pandas", "\bpandas\b");
    ("numpy", "\bnumpy\b");
    ("sql", "\bsql\b");
    ("nosql", "\bno[- ]?sql\b");
    ("spark", "\bspark\b");
    ("databricks", "\bdatabricks\b");
    ("aws", "\baws\b");
    ("azure", "\bazure\b");
    ("gcp", "\bgoogle cloud\b|\bgcp\b");
    ("docker", "\bdocker\b");
    ("kubernetes", "\bkubernetes\b");
    ("mlops", "\bml[- ]?ops\b");
    ("ci/cd", "\bci/?cd\b");
    ("git", "\bgit\b");
    ("linux", "\blinux\b");
    ("rest api", "\brest(ful)?\s+api\b");
    ("grpc", "\bgrpc\b");
    ("microservices", "\bmicro-?services\b");
    ("nlp", "\bnatural language processing\b|\bnlp\b");
    ("computer vision", "\bcomputer vision\b");
    ("reinforcement learning", "\breinforcement learning\b");
    ("machine learning", "\bmachine learning\b");
    ("deep learning", "\bdeep learning\b");
    ("generative ai", "\bgenerative ai\b");
    ("llm", "\bllms?\b|\blarge language model\b");
    ("rag", "\brag\b|\bretrieval[- ]augmented\b");
    ("prompt engineering", "\bprompt engineering\b");
    ("statistics", "\bstatistics?\b");
    ("probability", "\bprobabilit(y|ies)\b");
    ("linear algebra", "\blinear algebra\b");
    ("agile", "\bagile\b");
    ("jira", "\bjira\b");
    ("power bi", "\bpower bi\b");
    ("tableau", "\btableau\b");
    ("snowflake", "\bsnowflake\b");
    ("bigquery", "\bbigquery\b");
    ("airflow", "\bairflow\b");
    ("sql server", "\bsql server\b");
    ("postgresql", "\bpostgres(ql)?\b");
    ("mongodb", "\bmongodb\b") ].

(** The final expression of [compute_skill_frequencies] (and of the skill
    branch of [collect_and_analyse]):
    [dict(sorted(counts.items(), key=lambda item: (-item[1], item[0])))] *)
Definition sort_by_frequency (counts : gmap string Z) : list (string * Z) :=
  sorted frequency_key_ltb (map_to_list counts).

Section SkillExtractor.

(** The regular-expression engine of the standard library:
    [re_search pattern text] tells whether
    [re.compile(pattern, flags=re.IGNORECASE).search(text)] finds a match. *)
Variable re_search : string → string → bool.

(** [build_skill_regex]: each label with its compiled pattern, a pattern
    object being what its [search] answers. *)
Definition build_skill_regex : list (string * (string → bool)) :=
  (λ item, (item.1, re_search item.2)) <$> SKILL_PATTERNS.

Definition SKILL_REGEX : list (string * (string → bool)) := build_skill_regex.

(** The loop of [extract_skills] over the items of a regex table. *)
Fixpoint matching_labels (table : list (string * (string → bool)))
    (text : string) (hits : gset string) : gset string :=
  match table with
  | [] => hits
  | (label, pattern) :: rest =>
      matching_labels rest text
        (if pattern text then {[label]} ∪ hits else hits)
  end.

(** [extract_skills] *)
Definition extract_skills (markdown_text : string) : gset string :=
  let text := normalise_markdown markdown_text in
  matching_labels SKILL_REGEX text ∅.

(** The loop of [compute_skill_frequencies]; a set is walked in the
    order [elements] lists it, which the counts do not depend on. *)
Fixpoint skill_counts (counts : gmap string Z) (records : list JobRecord)
  : gmap string Z :=
  match records with
  | [] => counts
  | record :: rest =>
      if truthy (description_text record) then
        skill_counts
          (foldr counter_incr counts
             (elements (extract_skills (default "" (description_text record)))))
          rest
      else skill_counts counts rest
  end.

(** [compute_skill_frequencies] *)
Definition compute_skill_frequencies (records : list JobRecord)
  : list (string * Z) :=
  sort_by_frequency (skill_counts ∅ records).

End SkillExtractor.

(** ** [cache_ai_job_details.py] *)

Definition DETAIL_DIR : string := "data/job_details".
Definition JOB_DETAIL_URL (job_id : string) : string :=
  "https://r.jina.ai/https://www.seek.com.au/job/" +:+ job_id.
Definition DELAY_SECONDS : Q := 6 # 10.
Definition MAX_ATTEMPTS : Z := 4.
Definition BACKOFF_SECONDS : Q := 30 # 1.

(** [DETAIL_DIR / f"{job_id}.md"], for an identifier that is a plain file
    name (the listing file holds the numeric identifiers of the site). *)
Definition detail_path (job_id : string) : string :=
  DETAIL_DIR +:+ "/" +:+ job_id +:+ ".md".

(** What [requests.get(url, timeout=TIMEOUT)] gives: an exception of the
    transport, or a response with its status code and body text. *)
Inductive outcome : Type :=
  | Failed                                   (* requests.RequestException *)
  | Responded (status : Z) (text : string).

(** The lines the script prints, by their parts. *)
Inductive message : Type :=
  | MsgRemaining (remaining : Z)
  | MsgAttemptFailed (idx total : Z) (job_id : string) (attempt : Z)
  | MsgCached (idx total : Z) (job_id : string)
  | MsgRateLimited (idx total : Z) (job_id : string) (attempt : Z)
  | MsgUnexpected (idx total : Z) (job_id : string) (status : Z).

(** What the cache filler does to the outside world, in order. *)
Inductive action : Type :=
  | Request (url : string)                   (* requests.get *)
  | Pause (seconds : Q)                      (* time.sleep *)
  | WriteText (path : string) (text : string)(* path.write_text *)
  | Print (msg : message).

(** The world of a run: the files of the cache directory with their
    contents, and the actions taken so far. *)
Record world : Type := mk_world {
  files : gmap string string;
  log : list action
}.

Definition act (a : action) (w : world) : world :=
  {| files := files w; log := log w ++ [a] |}.

(** [path.write_text(text)]: creates the file or replaces its content. *)
Definition write_text (path text : string) (w : world) : world :=
  {| files := <[path := text]> (files w); log := log w ++ [WriteText path text] |}.

(** [path.exists()] *)
Definition exists_ (path : string) (w : world) : bool :=
  bool_decide (path ∈ dom (files w)).

(** The number of requests made so far. *)
Definition is_request (a : action) : bool :=
  match a with Request _ => true | _ => false end.
Definition requests_made (w : world) : nat :=
  length (List.filter is_request (log w)).

Section CacheAiJobDetails.

(** The network: the outcome of the [n]-th request of the run (from 0),
    made to [url]. *)
Variable network : nat → string → outcome.

(** [while attempt < MAX_ATTEMPTS: ...] for one identifier. Every round
    adds one to [attempt], so [MAX_ATTEMPTS - attempt] rounds are all the
    loop can make. *)
Fixpoint attempt_loop (fuel : nat) (idx total : Z) (job_id : string)
    (attempt : Z) (w : world) : world :=
  match fuel with
  | O => w
  | S fuel' =>
      if attempt <? MAX_ATTEMPTS then
        let attempt := attempt + 1 in
        let url := JOB_DETAIL_URL job_id in
        let resp := network (requests_made w) url in
        let w := act (Request url) w in
        match resp with
        | Failed =>
            let w := act (Print (MsgAttemptFailed idx total job_id attempt)) w in
            let w := act (Pause BACKOFF_SECONDS) w in
            attempt_loop fuel' idx total job_id attempt w
        | Responded status text =>
            if (status =? 200) && strip_nonempty text then
              let w := write_text (detail_path job_id) text w in
              let w := if idx mod 20 =? 0
                       then act (Print (MsgCached idx total job_id)) w else w in
              act (Pause DELAY_SECONDS) w
            else if status =? 429 then
              let w := act (Print (MsgRateLimited idx total job_id attempt)) w in
              let w := act (Pause BACKOFF_SECONDS) w in
              attempt_loop fuel' idx total job_id attempt w
            else
              act (Print (MsgUnexpected idx total job_id status)) w
        end
      else w
  end.

(** The body of [for idx, job in enumerate(jobs, start=1)]. *)
Definition cache_one (idx total : Z) (job_id : string) (w : world) : world :=
  if exists_ (detail_path job_id) w then w
  else attempt_loop (Z.to_nat MAX_ATTEMPTS) idx total job_id 0 w.

(** [for idx, job in enumerate(jobs, start=1): ...], from index [idx]. *)
Fixpoint cache_loop (idx total : Z) (jobs : list string) (w : world) : world :=
  match jobs with
  | [] => w
  | job_id :: rest => cache_loop (idx + 1) total rest (cache_one idx total job_id w)
  end.

(** [cache_details]. [listing] is what [load_jobs] finds: [None] when the
    listing file does not exist, else the ["job_id"] of each of its
    entries. *)
Definition cache_details (listing : option (list string)) (w : world)
  : result world :=
  match listing with
  | None => Raise SystemExit
  | Some jobs =>
      let remaining :=
        Z.of_nat (length (List.filter
                            (λ id, negb (exists_ (detail_path id) w)) jobs)) in
      let w := act (Print (MsgRemaining remaining)) w in
      Ok (cache_loop 1 (Z.of_nat (length jobs)) jobs w)
  end.

End CacheAiJobDetails.

(** ** The collector's statements of the specification, as written *)

Section CollectorStatements.

Variable fromisoformat : string → result datetime.

(** "When a listing older than the cutoff is encountered, the current
    page's remaining items are also skipped and pagination stops": if
    page [k] holds at position [i] a listing older than the cutoff, then
    no listing of page [k] after position [i] and no listing of a later
    page gives a record of the output. *)
Definition page_rest_skipped (cutoff : datetime) (pages : list (list RawJob))
    (out : list JobRecord) : Prop :=
  ∀ (k i : nat) jobs job,
    pages !! k = Some jobs → jobs !! i = Some job →
    older_than fromisoformat cutoff job →
    (∀ (j : nat) job' r,
       (i < j)%nat → jobs !! j = Some job' →
       record_of fromisoformat job' r → r ∉ out)
    ∧ (∀ (k' : nat) jobs' job' r,
         (k < k')%nat → pages !! k' = Some jobs' → job' ∈ jobs' →
         record_of fromisoformat job' r → r ∉ out).

(** "Once a listing older than the cutoff has been seen on some page, no
    listing coming from any later page appears in the output", no later
    page being fetched. *)
Definition later_pages_dropped (cutoff : datetime) (pages : list (list RawJob))
    (run : list event * result (list JobRecord)) : Prop :=
  ∀ (k : nat) jobs job,
    pages !! k = Some jobs → job ∈ jobs →
    older_than fromisoformat cutoff job →
    (∀ keyword p, EvGet keyword p ∈ run.1 → p <= Z.of_nat k + 1)
    ∧ (∀ out (k' : nat) jobs' job' r,
         run.2 = Ok out →
         (k < k')%nat → pages !! k' = Some jobs' → job' ∈ jobs' →
         record_of fromisoformat job' r → r ∉ out).

End CollectorStatements.

(** ** Sample listings *)

(** The clock of the sample runs, and the cutoff 90 days before it. *)
Definition sample_now : datetime := mk_datetime 2024 6 1 0 0 0 0 utc.
Definition sample_cutoff : datetime := mk_datetime 2024 3 3 0 0 0 0 utc.

(** A listing of 20 May 2024, within the cutoff. *)
Definition recent_listing (id : string) : RawJob :=
  {| raw_id := Some id; raw_title := Some "AI Engineer";
     raw_listingDate := Some "2024-05-20T10:00:00Z";
     raw_locations := [Some "Sydney NSW"]; raw_workTypes := Some ["Full time"];
     raw_companyName := Some "Acme"; raw_advertiser_description := None |}.

(** A listing of 15 January 2024, older than the cutoff. *)
Definition stale_listing (id : option string) : RawJob :=
  {| raw_id := id; raw_title := Some "AI Engineer";
     raw_listingDate := Some "2024-01-15T10:00:00Z";
     raw_locations := [Some "Sydney NSW"]; raw_workTypes := Some ["Full time"];
     raw_companyName := Some "Acme"; raw_advertiser_description := None |}.

(** The record the collector builds from [recent_listing id]. *)
Definition recent_record (id : string) : JobRecord :=
  {| job_id := id; title := "AI Engineer";
     listing_date := mk_datetime 2024 5 20 10 0 0 0 utc;
     location := Some "Sydney NSW"; employer := Some "Acme";
     work_type := Some "Full time"; description_text := None |}.

(** ** Notions used to state the properties of the cache filler *)

(** A response the script caches: status 200 with a body that is not blank. *)
Definition cacheable (o : outcome) : bool :=
  match o with
  | Responded status text => (status =? 200) && strip_nonempty text
  | Failed => false
  end.

(** An outcome the script retries after: a failure of the transport, or a
    429 response. *)
Definition retryable (o : outcome) : bool :=
  match o with
  | Failed => true
  | Responded status _ => status =? 429
  end.

(** How many of the outcomes of [limit] requests in a row to [url], from
    the [r]-th request of the run, are retryable before the first that is
    not. *)
Fixpoint leading_retryable (network : nat → string → outcome) (r : nat)
    (url : string) (limit : nat) : nat :=
  match limit with
  | O => O
  | S limit' =>
      if retryable (network r url)
      then S (leading_retryable network (S r) url limit') else O
  end.

(** The backoff sleeps of a log. *)
Definition is_backoff (a : action) : bool :=
  match a with
  | Pause seconds => Qeq_bool seconds BACKOFF_SECONDS
  | _ => false
  end.
Definition backoffs (l : list action) : nat := length (List.filter is_backoff l).

(** The requests of a log. *)
Definition requests (l : list action) : list string :=
  omap (λ a, match a with Request url => Some url | _ => None end) l.

(** The paths a log writes to. *)
Definition written (l : list action) : gset string :=
  list_to_set (omap (λ a, match a with WriteText p _ => Some p | _ => None end) l).

(** No write of the log goes to a file that exists when it is made,
    [existing] being the files there are before the log. *)
Fixpoint never_overwrites (existing : gset string) (l : list action) : bool :=
  match l with
  | [] => true
  | WriteText p _ :: l' =>
      bool_decide (p ∉ existing) && never_overwrites ({[p]} ∪ existing) l'
  | _ :: l' => never_overwrites existing l'
  end.

(** ** A sample network *)

(** A network that fails the first request, answers 429 to the second and
    the third, and then serves the page; and one that always answers 404. *)
Definition sample_network : nat → string → outcome :=
  λ n _, match n with
         | 0%nat => Failed
         | 1%nat | 2%nat => Responded 429 "slow down"
         | _ => Responded 200 "# AI Engineer"
         end.
Definition missing_network : nat → string → outcome :=
  λ _ _, Responded 404 "not found".

(** A cache directory with nothing in it, and nothing done yet. *)
Definition empty_world : world := {| files := ∅; log := [] |}.

(** ** Notions used to state the properties of the analysis helpers *)

(** The labels of the skill lexicon: the keys of [SKILL_PATTERNS]. *)
Definition skill_labels : gset string := list_to_set (SKILL_PATTERNS.*1).

(** [a] is strictly before [b] in the order of strings (by code point). *)
Definition str_lt (a b : string) : Prop := String.compare a b = Lt.

(** The order of the skill-frequency output: a higher count first, and for
    equal counts the lesser label first. *)
Definition frequency_before (a b : string * Z) : Prop :=
  b.2 < a.2 ∨ (a.2 = b.2 ∧ str_lt a.1 b.1).

(** ** Notions used to state the properties of the weekly aggregator *)

(** The ordinal of the Monday of the week of [d]: as many days before the
    date of [d] as its weekday counts. *)
Definition week_start (d : datetime) : Z := toordinal d - weekday d.

(** The ordinal of the UTC date of an aware datetime: the day its instant
    falls on at offset zero. *)
Definition utc_ordinal (d : datetime) : Z :=
  (wall_us d - default 0 (tzinfo d)) / 86400000000.

(** The number of [records] whose week key is [key]. *)
Definition count_week (key : string) (records : list JobRecord) : Z :=
  Z.of_nat (length (List.filter
                      (λ r, match week_key r with
                            | Ok k => String.eqb k key
                            | Raise _ => false
                            end) records)).

(** A timestamp as the listing records of the specification hold it: a
    datetime object, in UTC. *)
Definition utc_timestamp (d : datetime) : Prop :=
  valid_datetime d ∧ tzinfo d = utc.

(** One date before another, by year, then month, then day (the order of
    [date] objects). *)
Definition date_before (a b : Z * Z * Z) : Prop :=
  let '(y1, m1, d1) := a in
  let '(y2, m2, d2) := b in
  y1 < y2 ∨ (y1 = y2 ∧ (m1 < m2 ∨ (m1 = m2 ∧ d1 < d2))).

(** ** Checking a property on a range of numbers *)

(** [f] holds of the [k] numbers from [n] on. *)
Fixpoint all_from (k : nat) (n : Z) (f : Z → bool) : bool :=
  match k with
  | O => true
  | S k' => f n && all_from k' (n + 1) f
  end.

(** ** Sample records *)

(** A record listed at [d]. *)
Definition record_at (id : string) (d : datetime) : JobRecord :=
  {| job_id := id; title := "AI Engineer"; listing_date := d;
     location := None; employer := None; work_type := None;
     description_text := None |}.

(** Records of Wednesday 3, Monday 1 and Wednesday 10 January 2024. *)
Definition january_records : list JobRecord :=
  [ record_at "1" (mk_datetime 2024 1 3 10 0 0 0 utc);
    record_at "2" (mk_datetime 2024 1 1 0 0 0 0 utc);
    record_at "3" (mk_datetime 2024 1 10 23 59 59 0 utc) ].


(** ** The weekly contract in the words of the specification *)

(** The week of the UTC date of a timestamp: the ordinal of its UTC date
    less that date's [weekday()] days. *)
Definition utc_week_start (d : datetime) : Z :=
  utc_ordinal d - (utc_ordinal d + 6) mod 7.

(** The ISO form of the date of ordinal [n]. *)
Definition isoformat_of_ordinal (n : Z) : string :=
  let '(y, m, dd) := ord2ymd n in
  date_isoformat (mk_datetime y m dd 0 0 0 0 utc).

(** The number of [records] whose UTC date lies in the week of key [key]. *)
Definition count_utc_week (key : string) (records : list JobRecord) : Z :=
  Z.of_nat (length (List.filter
                      (λ r, String.eqb
                              (isoformat_of_ordinal
                                 (utc_week_start (listing_date r))) key)
                      records)).

(** What the specification says of the output [out] for [records]: its
    buckets are the weeks of the UTC dates of the records, each with the
    number of records of that week, and no week is there with zero. *)
Definition counts_by_utc_week (records : list JobRecord)
    (out : list (string * Z)) : Prop :=
  ∀ key n, (key, n) ∈ out ↔ 0 < n ∧ n = count_utc_week key records.

(** A listing of Monday 20 May 2024, 05:00 at offset +10:00 (Sunday 19 May,
    19:00 in UTC), and the record the collector builds from it. *)
Definition offset_listing : RawJob :=
  {| raw_id := Some "7"; raw_title := Some "AI Engineer";
     raw_listingDate := Some "2024-05-20T05:00:00+10:00";
     raw_locations := [Some "Sydney NSW"]; raw_workTypes := Some ["Full time"];
     raw_companyName := Some "Acme"; raw_advertiser_description := None |}.
Definition offset_record : JobRecord :=
  {| job_id := "7"; title := "AI Engineer";
     listing_date := mk_datetime 2024 5 20 5 0 0 0 (Some 36000000000);
     location := Some "Sydney NSW"; employer := Some "Acme";
     work_type := Some "Full time"; description_text := None |}.

(** Records with and without offset: the one above, one of Wednesday 15 May
    2024 in UTC, and one of Sunday 19 May 2024, 23:30 at offset -05:00. *)
Definition mixed_records : list JobRecord :=
  [ offset_record;
    record_at "8" (mk_datetime 2024 5 15 10 0 0 0 utc);
    record_at "9" (mk_datetime 2024 5 19 23 30 0 0 (Some (-18000000000))) ].

(** ** Further notions for the collector *)

(** The page numbers a run asks the search endpoint for, in order. *)
Definition requested_pages (evs : list event) : list Z :=
  omap (λ ev, match ev with EvGet _ p => Some p | EvSleep _ => None end) evs.

(** An event of a run for [keyword]: a request for that keyword, or the
    delay between pages. *)
Definition event_of (keyword : string) (ev : event) : Prop :=
  match ev with
  | EvGet kw _ => kw = keyword
  | EvSleep seconds => seconds = REQUEST_DELAY_SECONDS
  end.

(** A listing the loop body does not skip at once: it has an identifier
    and a timestamp, neither empty. *)
Definition usable (job : RawJob) : bool :=
  truthy (raw_id job) && truthy (raw_listingDate job).

(** An answer that ends the pagination: an exception of the transport, an
    error status, or an empty page. *)
Definition ends_pagination (answer : result response) : Prop :=
  match answer with
  | Raise _ => True
  | Ok resp => raise_for_status resp ≠ Ok tt ∨ data resp = []
  end.

(** The listings a search endpoint serves on the pages [ps], in order. *)
Definition served (server : string → Z → result response) (keyword : string)
    (ps : list Z) : list RawJob :=
  concat ((λ p, match server keyword p with
                | Ok resp => data resp
                | Raise _ => []
                end) <$> ps).

(** ** Further notions for the analysis helpers *)

(** The sum of the counts of a list of items. *)
Definition sum_counts (items : list (string * Z)) : Z :=
  foldr (λ item acc, item.2 + acc) 0 items.

(** The number of [records] that have a description in which [label] is
    found. *)
Definition documents_with (re_search : string → string → bool)
    (label : string) (records : list JobRecord) : Z :=
  Z.of_nat (length (List.filter
                      (λ r, truthy (description_text r)
                            && bool_decide
                                 (label ∈ extract_skills re_search
                                            (default "" (description_text r))))
                      records)).

(** ** Further notions for the cache filler *)

(** The identifiers of a listing that have no cache file in [w], counted
    as the script counts them for its first line ("N job descriptions to
    fetch"). *)
Definition uncached (jobs : list string) (w : world) : list string :=
  List.filter (λ id, negb (exists_ (detail_path id) w)) jobs.


(** [fetch_job_markdown] of [seek_job_analysis.py], on the outcome of its
    request to the proxy (the same address as [JOB_DETAIL_URL]): the body
    of a 200 response that is not blank, [None] for any other response and
    for an exception of the transport. *)
Definition fetch_job_markdown (o : outcome) : option string :=
  match o with
  | Responded status text =>
      if (status =? 200) && strip_nonempty text then Some text else None
  | Failed => None
  end.

(** What every record of the collector satisfies: an identifier that is
    not empty, a location and a work type that are absent rather than
    empty, and no description yet. *)
Definition well_formed (r : JobRecord) : Prop :=
  job_id r ≠ "" ∧ location r ≠ Some "" ∧ work_type r ≠ Some ""
  ∧ description_text r = None.
(* ===================================================================== *)
(** * Part II: properties                                                *)
(* ===================================================================== *)

(** ** Strings *)

Example normalise_markdown_sample :
  normalise_markdown ("  Hello" +:+ String (ascii_of_nat 10) "" +:+ " WORLD  x ")
  = "hello world x".
Proof. reflexivity. Qed.

Lemma app_cons c s t : String c s +:+ t = String c (s +:+ t).
Proof. reflexivity. Qed.

Lemma app_empty_r s : s +:+ "" = s.
Proof. induction s as [|c s IH]; [done|]. by rewrite app_cons, IH. Qed.

Lemma app_assoc_str s t u : (s +:+ t) +:+ u = s +:+ (t +:+ u).
Proof. induction s as [|c s IH]; [done|]. by rewrite !app_cons, IH. Qed.

Lemma lower_char_idem c : lower_char (lower_char c) = lower_char c.
Proof. destruct c as [[] [] [] [] [] [] [] []]; reflexivity. Qed.

Lemma isspace_lower_char c : isspace (lower_char c) = isspace c.
Proof. destruct c as [[] [] [] [] [] [] [] []]; reflexivity. Qed.

Lemma lower_idem s : lower (lower s) = lower s.
Proof. induction s as [|c s IH]; simpl; [done|]. by rewrite lower_char_idem, IH. Qed.

Lemma lower_app s t : lower (s +:+ t) = lower s +:+ lower t.
Proof. induction s as [|c s IH]; [done|]. rewrite app_cons. simpl. by rewrite IH. Qed.

Lemma lower_eq_empty s : lower s = "" ↔ s = "".
Proof. destruct s; simpl; split; congruence. Qed.

Lemma nospace_app s t : nospace (s +:+ t) = nospace s && nospace t.
Proof.
  induction s as [|c s IH]; [done|]. rewrite app_cons. simpl.
  by rewrite IH, andb_assoc.
Qed.

Lemma nospace_lower s : nospace (lower s) = nospace s.
Proof. induction s as [|c s IH]; simpl; [done|]. by rewrite isspace_lower_char, IH. Qed.

Lemma is_word_lower s : is_word s → is_word (lower s).
Proof. intros [Hne Hns]. split; [by rewrite lower_eq_empty | by rewrite nospace_lower]. Qed.

(** [split] sees characters only through [isspace], so it commutes with
    [lower]. *)
Lemma split_from_lower w s :
  split_from (lower w) (lower s) = lower <$> split_from w s.
Proof.
  revert w. induction s as [|c s IH]; intros w; simpl.
  - repeat case_decide; try done; rewrite lower_eq_empty in *; done.
  - rewrite isspace_lower_char. destruct (isspace c).
    + rewrite fmap_app, <- (IH ""). simpl.
      repeat case_decide; try done; rewrite lower_eq_empty in *; done.
    + by rewrite <- IH, lower_app.
Qed.

Lemma split_lower s : split (lower s) = lower <$> split s.
Proof. apply (split_from_lower "" s). Qed.

(** Reading a whitespace-free run extends the current word. *)
Lemma split_from_run w u s :
  nospace u = true → split_from w (u +:+ s) = split_from (w +:+ u) s.
Proof.
  revert w. induction u as [|c u IH]; intros w Hu.
  - by rewrite app_empty_r.
  - simpl in Hu. apply andb_prop in Hu as [Hc Hu]. apply negb_true_iff in Hc.
    rewrite app_cons. simpl. rewrite Hc, IH by done.
    by rewrite app_assoc_str.
Qed.

Lemma split_from_space w c s :
  isspace c = true →
  split_from w (String c s)
  = ((if decide (w = "") then [] else [w]) ++ split_from "" s)%list.
Proof. intros Hc. simpl. by rewrite Hc. Qed.

Lemma split_from_words w s :
  nospace w = true → Forall is_word (split_from w s).
Proof.
  revert w. induction s as [|c s IH]; intros w Hw; simpl.
  - case_decide; [constructor|]. by repeat constructor.
  - destruct (isspace c) eqn:Hc.
    + apply Forall_app. split; [|by apply IH].
      case_decide; [constructor|]. by repeat constructor.
    + apply IH. rewrite nospace_app, Hw. simpl. by rewrite Hc.
Qed.

Lemma split_words s : Forall is_word (split s).
Proof. by apply split_from_words. Qed.

Lemma join_cons2 sep w w' ws :
  join sep (w :: w' :: ws) = w +:+ sep +:+ join sep (w' :: ws).
Proof. reflexivity. Qed.

(** Splitting what [join] glued with single spaces gives the words back. *)
Lemma split_join ws : Forall is_word ws → split (join " " ws) = ws.
Proof.
  unfold split. induction 1 as [|w ws [Hne Hns] Hws IH]; [done|].
  destruct ws as [|w' ws].
  - simpl. rewrite <- (app_empty_r w) at 1. rewrite split_from_run by done.
    simpl. by case_decide.
  - rewrite join_cons2, split_from_run by done.
    remember (join " " (w' :: ws)) as rest eqn:Hrest.
    change (" " +:+ rest) with (String " " rest).
    rewrite split_from_space by done. rewrite IH.
    change ("" +:+ w) with w. by case_decide.
Qed.

Lemma lower_join ws : lower (join " " ws) = join " " (lower <$> ws).
Proof.
  induction ws as [|w ws IH]; [done|].
  destruct ws as [|w' ws]; [done|].
  rewrite fmap_cons, fmap_cons, !join_cons2, <- fmap_cons, <- IH.
  by rewrite !lower_app.
Qed.


(** ** The calendar *)

Example ord2ymd_samples :
  ord2ymd 1 = (1, 1, 1) ∧ ord2ymd 738886 = (2024, 1, 1)
  ∧ ord2ymd 730179 = (2000, 2, 29) ∧ ord2ymd 730180 = (2000, 3, 1)
  ∧ ord2ymd 730485 = (2000, 12, 31) ∧ ord2ymd 730486 = (2001, 1, 1)
  ∧ ord2ymd MAXORDINAL = (9999, 12, 31) ∧ ymd2ord 2024 1 3 = 738888.
Proof. repeat split; reflexivity. Qed.

Example week_floor_samples :
  week_floor (mk_datetime 2024 1 3 15 30 0 0 utc)
  = Ok (mk_datetime 2024 1 1 0 0 0 0 utc)
  ∧ date_isoformat (mk_datetime 2024 1 3 15 30 0 0 utc) = "2024-01-03"
  ∧ date_isoformat (mk_datetime 33 11 9 15 30 0 0 utc) = "0033-11-09".
Proof. repeat split; reflexivity. Qed.

Lemma month_day_ok_all (leapyear : bool) (k : nat) :
  (k < 365 + (if leapyear then 1 else 0))%nat →
  month_day_ok leapyear (Z.of_nat k) = true.
Proof.
  intros Hk. destruct leapyear.
  - assert (H : forallb (λ k, month_day_ok true (Z.of_nat k)) (seq 0 366) = true)
      by (vm_compute; reflexivity).
    rewrite forallb_forall in H. apply H, in_seq. lia.
  - assert (H : forallb (λ k, month_day_ok false (Z.of_nat k)) (seq 0 365) = true)
      by (vm_compute; reflexivity).
    rewrite forallb_forall in H. apply H, in_seq. lia.
Qed.

Lemma month_day_spec (leapyear : bool) n m d :
  0 <= n < 365 + (if leapyear then 1 else 0) →
  month_day leapyear n = (m, d) →
  1 <= m <= 12
  ∧ 1 <= d <= (if (m =? 2) && leapyear then 29 else index DAYS_IN_MONTH m)
  ∧ index DAYS_BEFORE_MONTH m + (if (2 <? m) && leapyear then 1 else 0) + d
    = n + 1.
Proof.
  intros Hn Hmd.
  pose proof (month_day_ok_all leapyear (Z.to_nat n)) as Hok.
  rewrite Z2Nat.id in Hok by lia.
  unfold month_day_ok in Hok. rewrite Hmd in Hok.
  destruct leapyear; (lapply Hok; [clear Hok; intros Hok | lia]);
    repeat (apply andb_prop in Hok as [Hok ?]); lia.
Qed.

(** [ord2ymd], seen as a year computation followed by [month_day]. *)
Lemma ord2ymd_unfold n :
  ord2ymd n =
  let n0 := n - 1 in
  let n400 := n0 / DI400Y in let r1 := n0 mod DI400Y in
  let n100 := r1 / DI100Y in let r2 := r1 mod DI100Y in
  let n4 := r2 / DI4Y in let r3 := r2 mod DI4Y in
  let n1 := r3 / 365 in let r := r3 mod 365 in
  let y := n400 * 400 + 1 + n100 * 100 + n4 * 4 + n1 in
  if (n1 =? 4) || (n100 =? 4) then (y - 1, 12, 31)
  else
    let '(m, d) := month_day ((n1 =? 3) && (negb (n4 =? 24) || (n100 =? 3))) r in
    (y, m, d).
Proof.
  unfold ord2ymd, month_day. cbv zeta.
  repeat match goal with |- context [if ?b then _ else _] => destruct b end;
    reflexivity.
Qed.

(** The year computed by [ord2ymd], from the quotients of its divisions:
    a leap year is recognised from the quotients, and the days before it
    are the multiples taken out. *)
Lemma year_from_quotients a b c e :
  0 <= a → 0 <= b <= 3 → 0 <= c <= 24 → 0 <= e <= 3 →
  let y := a * 400 + 1 + b * 100 + c * 4 + e in
  is_leap y = (e =? 3) && (negb (c =? 24) || (b =? 3))
  ∧ days_before_year y = a * DI400Y + b * DI100Y + c * DI4Y + e * 365.
Proof.
  intros Ha Hb Hc He y. subst y. unfold is_leap, days_before_year, DI400Y, DI100Y, DI4Y.
  split.
  - destruct (e =? 3) eqn:E3, (c =? 24) eqn:C24, (b =? 3) eqn:B3; simpl;
      repeat match goal with
             | |- context [?x mod ?k =? 0] => destruct (Z.eqb_spec (x mod k) 0)
             end; simpl; try reflexivity; exfalso;
      Z.div_mod_to_equations; lia.
  - Z.div_mod_to_equations. lia.
Qed.

(** [ord2ymd] yields a date of the calendar whose ordinal is its argument. *)
Lemma ord2ymd_spec n y m d :
  1 <= n → ord2ymd n = (y, m, d) →
  1 <= y ∧ 1 <= m <= 12 ∧ 1 <= d <= days_in_month y m ∧ ymd2ord y m d = n.
Proof.
  intros Hn. rewrite ord2ymd_unfold. cbv zeta.
  set (n0 := n - 1).
  set (a := n0 / DI400Y). set (r1 := n0 mod DI400Y).
  set (b := r1 / DI100Y). set (r2 := r1 mod DI100Y).
  set (c := r2 / DI4Y). set (r3 := r2 mod DI4Y).
  set (e := r3 / 365). set (r := r3 mod 365).
  assert (Hdec : n0 = a * DI400Y + b * DI100Y + c * DI4Y + e * 365 + r
                 ∧ 0 <= a ∧ 0 <= b <= 4 ∧ 0 <= c <= 24 ∧ 0 <= e <= 4
                 ∧ 0 <= r < 365
                 ∧ (b = 4 → c = 0 ∧ e = 0 ∧ r = 0) ∧ (e = 4 → r = 0)
                 ∧ c * DI4Y + e * 365 + r < DI100Y).
  { subst a r1 b r2 c r3 e r. unfold DI400Y, DI100Y, DI4Y.
    assert (0 <= n0) by (subst n0; lia). clearbody n0.
    Z.div_mod_to_equations. lia. }
  clearbody a b c e r. clear r1 r2 r3.
  destruct Hdec as (Hn0 & Ha & Hb & Hc & He & Hr & Hb4 & He4 & Hr2).
  destruct ((e =? 4) || (b =? 4)) eqn:Hspecial.
  - (* the last day of a leap year: December 31st of the year before *)
    intros [= <- <- <-].
    apply orb_prop in Hspecial.
    assert (Hyear : ∃ b' c' e', 0 <= b' <= 3 ∧ 0 <= c' <= 24 ∧ 0 <= e' <= 3
              ∧ a * 400 + 1 + b * 100 + c * 4 + e - 1
                = a * 400 + 1 + b' * 100 + c' * 4 + e'
              ∧ (e' =? 3) && (negb (c' =? 24) || (b' =? 3)) = true
              ∧ a * DI400Y + b' * DI100Y + c' * DI4Y + e' * 365 + 365 = n0).
    { destruct Hspecial as [E|B]; [apply Z.eqb_eq in E | apply Z.eqb_eq in B].
      - destruct (Z.eq_dec b 4) as [B|B].
        + destruct (Hb4 B) as (-> & ? & ?). lia.
        + specialize (He4 E). unfold DI400Y, DI100Y, DI4Y in *.
          assert ((3 =? 3) && (negb (c =? 24) || (b =? 3)) = true).
          { simpl. destruct (Z.eqb_spec c 24), (Z.eqb_spec b 3); try done.
            exfalso. lia. }
          exists b, c, 3. repeat split; try lia; done.
      - destruct (Hb4 B) as (-> & -> & ->). unfold DI400Y, DI100Y, DI4Y in *.
        exists 3, 24, 3. repeat split; try lia; done. }
    destruct Hyear as (b' & c' & e' & Hb' & Hc' & He' & -> & Hleap & Hord).
    destruct (year_from_quotients a b' c' e' Ha Hb' Hc' He') as [Hl Hd].
    cbv zeta in Hl, Hd. repeat split; try lia.
    + unfold days_in_month. simpl. unfold index. simpl. lia.
    + unfold ymd2ord, days_before_month. rewrite Hd, Hl, Hleap.
      unfold index. simpl. lia.
  - apply orb_false_elim in Hspecial as [E B].
    apply Z.eqb_neq in E, B.
    assert (Hb' : 0 <= b <= 3) by lia. assert (He' : 0 <= e <= 3) by lia.
    destruct (year_from_quotients a b c e Ha Hb' Hc He') as [Hl Hd].
    cbv zeta in Hl, Hd.
    set (leap := (e =? 3) && (negb (c =? 24) || (b =? 3))) in *.
    destruct (month_day leap r) as [m' d'] eqn:Hmd.
    intros [= <- <- <-].
    apply month_day_spec in Hmd.
    + destruct Hmd as (Hm & Hd' & Hsum).
      unfold days_in_month, ymd2ord, days_before_month. rewrite Hl, Hd.
      repeat split; try lia.
    + destruct leap; lia.
Qed.

Example fromisoformat_basic_samples :
  fromisoformat_basic (replace_Z "2024-01-03T05:12:33Z")
  = Ok (mk_datetime 2024 1 3 5 12 33 0 utc)
  ∧ fromisoformat_basic "2024-01-01T05:00:00+10:00"
    = Ok (mk_datetime 2024 1 1 5 0 0 0 (Some 36000000000))
  ∧ fromisoformat_basic "2024-02-30T05:00:00+10:00" = Raise ValueError
  ∧ fromisoformat_basic "yesterday" = Raise ValueError.
Proof. repeat split; reflexivity. Qed.

(** ** The listing collector *)

Lemma collector_inv_start cutoff : collector_inv cutoff start.
Proof.
  split; [constructor|]. split; [|constructor].
  intros id. simpl. set_solver.
Qed.

Section Collector.

Variable fromisoformat : string → result datetime.

Abbreviation process_job := (process_job fromisoformat).
Abbreviation process_jobs := (process_jobs fromisoformat).
Abbreviation iso_to_datetime := (iso_to_datetime fromisoformat).
Abbreviation hits_cutoff := (hits_cutoff fromisoformat).
Abbreviation collect_pages := (collect_pages fromisoformat).

(** The three ways the loop body ends without an exception: the listing
    is skipped, it hits the cutoff, or it is kept. *)
Lemma process_job_spec cutoff st job st' :
  process_job cutoff st job = Ok st' →
  st' = st
  ∨ (hits_cutoff cutoff st job ∧ st' = mark_cutoff st)
  ∨ (∃ id raw dt,
       raw_id job = Some id ∧ (id ∉ seen_ids st)
       ∧ raw_listingDate job = Some raw
       ∧ iso_to_datetime raw = Ok dt ∧ dt_lt dt cutoff = Ok false
       ∧ st' = keep id (make_record job id dt) st).
Proof.
  unfold process_job.
  destruct (raw_id job) as [id|] eqn:Hid; [|intros [= <-]; by left].
  destruct (String.eqb_spec id "") as [->|Hne]; simpl; [intros [= <-]; by left|].
  case_bool_decide as Hseen; simpl; [intros [= <-]; by left|].
  destruct (raw_listingDate job) as [raw|] eqn:Hraw; simpl;
    [|intros [= <-]; by left].
  destruct (String.eqb_spec raw "") as [->|Hraw_ne]; simpl;
    [intros [= <-]; by left|].
  unfold mbind, result_bind.
  destruct (iso_to_datetime raw) as [dt|e] eqn:Hdt; [|done].
  destruct (dt_lt dt cutoff) as [[|]|e] eqn:Hlt; [| |done]; intros [= <-].
  - right; left. split; [|done]. by exists id, raw, dt.
  - right; right. by exists id, raw, dt.
Qed.

Lemma process_job_hit cutoff st job :
  hits_cutoff cutoff st job → process_job cutoff st job = Ok (mark_cutoff st).
Proof.
  intros (id & raw & dt & Hid & Hne & Hseen & Hraw & Hraw_ne & Hdt & Hlt).
  unfold process_job. rewrite Hid, Hraw. simpl.
  destruct (String.eqb_spec id ""); [done|].
  rewrite bool_decide_eq_false_2 by done. simpl.
  destruct (String.eqb_spec raw ""); [done|]. simpl.
  rewrite Hdt. simpl. by rewrite Hlt.
Qed.

(** A listing whose identifier is already collected is dropped: the
    collector is unchanged and nothing is raised. *)
Lemma process_job_seen cutoff st job id :
  raw_id job = Some id → id ∈ seen_ids st → process_job cutoff st job = Ok st.
Proof.
  intros Hid Hseen. unfold process_job. rewrite Hid.
  rewrite (bool_decide_eq_true_2 _ Hseen). by rewrite orb_true_r.
Qed.

Lemma process_jobs_app cutoff st jobs1 jobs2 :
  process_jobs cutoff st (jobs1 ++ jobs2)
  = st' ← process_jobs cutoff st jobs1; process_jobs cutoff st' jobs2.
Proof.
  revert st. induction jobs1 as [|job jobs1 IH]; intros st; [done|].
  simpl. destruct (process_job cutoff st job) as [st'|e]; simpl; [|done].
  apply IH.
Qed.

(** The loop body never looks at [reached_cutoff], and only ever sets it. *)
Lemma process_job_mark cutoff st job :
  process_job cutoff (mark_cutoff st) job
  = mark_cutoff <$> process_job cutoff st job.
Proof.
  unfold process_job. simpl.
  destruct (raw_id job) as [id|]; [|done].
  destruct (String.eqb id "" || bool_decide (id ∈ seen_ids st)); [done|].
  destruct (negb (truthy (raw_listingDate job))); [done|].
  unfold mbind, result_bind.
  destruct (iso_to_datetime _) as [dt|e]; [|done].
  by destruct (dt_lt dt cutoff) as [[|]|e].
Qed.

Lemma process_jobs_mark cutoff st jobs :
  process_jobs cutoff (mark_cutoff st) jobs
  = mark_cutoff <$> process_jobs cutoff st jobs.
Proof.
  revert st. induction jobs as [|job jobs IH]; intros st; simpl; [done|].
  rewrite process_job_mark.
  destruct (process_job cutoff st job) as [st1|e]; simpl; [|done].
  apply IH.
Qed.

Lemma process_job_page cutoff st job st' :
  process_job cutoff st job = Ok st' →
  page st' = page st ∧ (reached_cutoff st = true → reached_cutoff st' = true).
Proof.
  intros H. apply process_job_spec in H as [->|[[_ ->]|(id & raw & dt & H)]];
    [done|done|].
  destruct H as (_ & _ & _ & _ & _ & ->). done.
Qed.

Lemma process_jobs_page cutoff st jobs st' :
  process_jobs cutoff st jobs = Ok st' →
  page st' = page st ∧ (reached_cutoff st = true → reached_cutoff st' = true).
Proof.
  revert st. induction jobs as [|job jobs IH]; intros st; simpl.
  - by intros [= <-].
  - destruct (process_job cutoff st job) as [st1|e] eqn:Hjob; simpl; [|done].
    intros Hrest. apply process_job_page in Hjob as [Hp Hr].
    apply IH in Hrest as [Hp' Hr']. split; [congruence|auto].
Qed.

(** *** The invariant of the collector *)

Lemma collector_inv_process_job cutoff st job st' :
  collector_inv cutoff st → process_job cutoff st job = Ok st' →
  collector_inv cutoff st'.
Proof.
  intros (Hnd & Hseen & Hold) H.
  apply process_job_spec in H as [->|[[_ ->]|(id & raw & dt & H)]];
    [done|done|].
  destruct H as (_ & Hfresh & _ & _ & Hlt & ->).
  unfold collector_inv, keep. simpl. rewrite fmap_app. simpl.
  split; [|split].
  - apply NoDup_app. split; [done|]. split; [|apply NoDup_singleton].
    intros x Hx ->%list_elem_of_singleton. apply Hfresh, Hseen, Hx.
  - intros x. rewrite elem_of_union, elem_of_singleton, elem_of_app,
      list_elem_of_singleton, Hseen. tauto.
  - apply Forall_app. split; [done|]. by repeat constructor.
Qed.

Lemma collector_inv_process_jobs cutoff st jobs st' :
  collector_inv cutoff st → process_jobs cutoff st jobs = Ok st' →
  collector_inv cutoff st'.
Proof.
  revert st. induction jobs as [|job jobs IH]; intros st Hinv; simpl.
  - by intros [= <-].
  - destruct (process_job cutoff st job) as [st1|e] eqn:Hjob; simpl; [|done].
    apply IH. by eapply collector_inv_process_job.
Qed.


(** *** The pagination loop *)

Variable server : string → Z → result response.

Abbreviation fetch_loop := (fetch_loop fromisoformat server).

Lemma fetch_loop_stop fuel keyword cutoff max_pages st :
  reached_cutoff st = true →
  fetch_loop fuel keyword cutoff max_pages st = ([], Ok (results st)).
Proof.
  intros H. destruct fuel; [done|]. simpl. by rewrite H, andb_false_r.
Qed.

(** One round of the loop on a page that is not empty and raises nothing. *)
Lemma fetch_loop_turn fuel keyword cutoff max_pages st resp st' :
  page st <= max_pages → reached_cutoff st = false →
  server keyword (page st) = Ok resp → raise_for_status resp = Ok tt →
  data resp ≠ [] → process_jobs cutoff st (data resp) = Ok st' →
  fetch_loop (S fuel) keyword cutoff max_pages st
  = (EvGet keyword (page st) :: EvSleep REQUEST_DELAY_SECONDS
       :: (fetch_loop fuel keyword cutoff max_pages (turn_page st')).1,
     (fetch_loop fuel keyword cutoff max_pages (turn_page st')).2).
Proof.
  intros Hp Hr Hs Hst Hne Hjobs. cbn -[process_jobs].
  rewrite (proj2 (Z.leb_le _ _) Hp), Hr, Hs, Hst. cbn -[process_jobs].
  destruct (data resp) as [|job jobs] eqn:Hdata; [done|].
  rewrite Hjobs. by destruct (fetch_loop fuel _ _ _ _).
Qed.

(** One round of the loop on a page whose processing raises. *)
Lemma fetch_loop_raise fuel keyword cutoff max_pages st resp e :
  page st <= max_pages → reached_cutoff st = false →
  server keyword (page st) = Ok resp → raise_for_status resp = Ok tt →
  data resp ≠ [] → process_jobs cutoff st (data resp) = Raise e →
  fetch_loop (S fuel) keyword cutoff max_pages st
  = ([EvGet keyword (page st)], Raise e).
Proof.
  intros Hp Hr Hs Hst Hne Hjobs. cbn -[process_jobs].
  rewrite (proj2 (Z.leb_le _ _) Hp), Hr, Hs, Hst. cbn -[process_jobs].
  destruct (data resp) as [|job jobs] eqn:Hdata; [done|].
  by rewrite Hjobs.
Qed.

(** The fuel is enough: the loop stops by itself within
    [max_pages - page + 1] rounds, so more fuel changes nothing. *)
Lemma fetch_loop_fuel fuel keyword cutoff max_pages st :
  max_pages - page st + 1 <= Z.of_nat fuel →
  fetch_loop (S fuel) keyword cutoff max_pages st
  = fetch_loop fuel keyword cutoff max_pages st.
Proof.
  revert st. induction fuel as [|fuel IH]; intros st Hfuel.
  - simpl. destruct (Z.leb_spec (page st) max_pages); [lia|done].
  - remember (S fuel) as fuel1 eqn:Hfuel1.
    rewrite Hfuel1 at 2. cbn -[process_jobs].
    destruct ((page st <=? max_pages) && negb (reached_cutoff st)); [|done].
    destruct (server keyword (page st)) as [resp|e]; [|done].
    destruct (raise_for_status resp); [|done].
    destruct (data resp) as [|job jobs]; [done|].
    destruct (process_jobs cutoff st (job :: jobs)) as [st'|e] eqn:Hjobs; [|done].
    subst fuel1. rewrite IH; [done|].
    apply process_jobs_page in Hjobs as [Hp _]. simpl. lia.
Qed.

(** The loop keeps the invariant: what it returns has distinct
    identifiers and nothing older than the cutoff. *)
Lemma fetch_loop_inv fuel keyword cutoff max_pages st evs rs :
  collector_inv cutoff st →
  fetch_loop fuel keyword cutoff max_pages st = (evs, Ok rs) →
  NoDup (job_id <$> rs)
  ∧ Forall (λ r, dt_lt (listing_date r) cutoff = Ok false) rs.
Proof.
  revert st evs. induction fuel as [|fuel IH]; intros st evs Hinv;
    cbn -[process_jobs].
  - intros [= <- <-]. destruct Hinv as (? & ? & ?). done.
  - destruct ((page st <=? max_pages) && negb (reached_cutoff st));
      [|intros [= <- <-]; destruct Hinv as (? & ? & ?); done].
    destruct (server keyword (page st)) as [resp|e]; [|done].
    destruct (raise_for_status resp); [|done].
    destruct (data resp) as [|job jobs];
      [intros [= <- <-]; destruct Hinv as (? & ? & ?); done|].
    destruct (process_jobs cutoff st (job :: jobs)) as [st'|e] eqn:Hjobs; [|done].
    destruct (fetch_loop fuel keyword cutoff max_pages (turn_page st'))
      as [evs' r] eqn:Hloop.
    intros [= <- ->]. eapply IH; [|exact Hloop].
    eapply collector_inv_process_jobs in Hjobs; [|done].
    destruct Hjobs as (? & ? & ?). done.
Qed.

End Collector.

(** *** Runs over a fixed sequence of pages *)

Section CollectorPages.

Variable fromisoformat : string → result datetime.

Abbreviation process_jobs := (process_jobs fromisoformat).
Abbreviation collect_pages := (collect_pages fromisoformat).
Abbreviation cutoff_hit := (cutoff_hit fromisoformat).

Lemma serve_page pages keyword (n : nat) :
  serve pages keyword (Z.of_nat n + 1)
  = Ok {| status_code := 200; data := default [] (pages !! n) |}.
Proof.
  unfold serve. destruct (Z.ltb_spec (Z.of_nat n + 1) 1); [lia|].
  by replace (Z.to_nat (Z.of_nat n + 1 - 1)) with n by lia.
Qed.

Lemma page_events_app keyword p n m :
  page_events keyword p (n + m)
  = page_events keyword p n ++ page_events keyword (p + Z.of_nat n) m.
Proof.
  revert p. induction n as [|n IH]; intros p; simpl.
  - by rewrite Z.add_0_r.
  - replace (p + Z.of_nat (S n)) with (p + 1 + Z.of_nat n) by lia.
    by rewrite IH.
Qed.

Lemma page_events_snoc keyword p n :
  page_events keyword p (S n)
  = page_events keyword p n
      ++ [EvGet keyword (p + Z.of_nat n); EvSleep REQUEST_DELAY_SECONDS].
Proof.
  replace (S n) with (n + 1)%nat by lia. by rewrite page_events_app.
Qed.

Lemma page_events_pages keyword p n kw q :
  EvGet kw q ∈ page_events keyword p n → p <= q < p + Z.of_nat n.
Proof.
  revert p. induction n as [|n IH]; intros p; simpl.
  - by intros ?%elem_of_nil.
  - rewrite !elem_of_cons. intros [[= _ ->]|[[=]|H]]; [lia|].
    apply IH in H. lia.
Qed.

Lemma collect_pages_page cutoff st pre st' :
  collect_pages cutoff st pre = Ok st' →
  page st' = page st + Z.of_nat (length pre)
  ∧ (reached_cutoff st = true → reached_cutoff st' = true).
Proof.
  revert st. induction pre as [|jobs pre IH]; intros st; simpl.
  - intros [= <-]. split; [lia|done].
  - destruct (process_jobs cutoff st jobs) as [st1|e] eqn:Hjobs; [|done].
    simpl. intros H. apply IH in H as [Hp Hr].
    apply process_jobs_page in Hjobs as [Hp1 Hr1].
    simpl in *. split; [lia|auto].
Qed.

(** Over pages that are not empty and neither raise nor hit the cutoff,
    the loop makes one round each. *)
Lemma fetch_loop_prefix pages keyword cutoff max_pages pre :
  ∀ (n fuel : nat) st st',
    page st = Z.of_nat n + 1 →
    (∀ j, (j < length pre)%nat → pages !! (n + j)%nat = pre !! j) →
    Forall (λ p, p ≠ []) pre →
    collect_pages cutoff st pre = Ok st' → reached_cutoff st' = false →
    Z.of_nat (n + length pre) <= max_pages →
    fetch_loop fromisoformat (serve pages) (length pre + fuel)
      keyword cutoff max_pages st
    = (page_events keyword (page st) (length pre)
         ++ (fetch_loop fromisoformat (serve pages) fuel
               keyword cutoff max_pages st').1,
       (fetch_loop fromisoformat (serve pages) fuel
          keyword cutoff max_pages st').2).
Proof.
  induction pre as [|jobs pre IH]; intros n fuel st st' Hp Hpages Hne Hcol Hr Hmax.
  - simpl in *. injection Hcol as <-. by destruct (fetch_loop _ _ _ _ _ _ _).
  - apply Forall_cons in Hne as [Hjobs_ne Hne].
    simpl in Hcol.
    destruct (process_jobs cutoff st jobs) as [st1|e] eqn:Hjobs; [|done].
    simpl in Hcol.
    assert (Hst_r : reached_cutoff st = false).
    { destruct (reached_cutoff st) eqn:E; [|done].
      apply process_jobs_page in Hjobs as [_ Hr1].
      apply collect_pages_page in Hcol as [_ Hr2].
      simpl in Hr2. rewrite Hr2 in Hr; auto. }
    assert (Hhere : pages !! n = Some jobs).
    { specialize (Hpages 0%nat). simpl in Hpages.
      rewrite Nat.add_0_r in Hpages. apply Hpages. lia. }
    change (length (jobs :: pre) + fuel)%nat with (S (length pre + fuel)).
    rewrite (fetch_loop_turn fromisoformat (serve pages) _ keyword cutoff
               max_pages st {| status_code := 200; data := jobs |} st1).
    + pose proof (process_jobs_page _ _ _ _ _ Hjobs) as [Hp1 _].
      rewrite (IH (S n) fuel (turn_page st1) st'); simpl; try done; try lia.
      * rewrite Hp1. do 4 f_equal.
      * intros j Hj. specialize (Hpages (S j)). simpl in Hpages.
        rewrite <- Hpages by lia. f_equal. lia.
      * simpl in Hmax. lia.
    + simpl in Hmax. lia.
    + done.
    + rewrite Hp, serve_page, Hhere. done.
    + done.
    + done.
    + done.
Qed.


(** What the collector returns when the cutoff is hit on page [k + 1] at
    position [i]: the listings after position [i] on that page are gone
    through like any others, and the loop ends with that page. *)
Lemma fetch_cutoff_hit now keyword max_age_days max_pages cutoff pages
    (k i : nat) jobs st_i :
  sub_days now max_age_days = Ok cutoff →
  Z.of_nat k < max_pages →
  pages !! k = Some jobs →
  cutoff_hit cutoff pages k i st_i →
  fetch_jobs_for_keyword fromisoformat (serve pages)
    now keyword max_age_days max_pages
  = match process_jobs cutoff st_i (drop (S i) jobs) with
    | Ok st_end => (page_events keyword 1 (S k), Ok (results st_end))
    | Raise e =>
        (page_events keyword 1 k ++ [EvGet keyword (Z.of_nat k + 1)], Raise e)
    end.
Proof.
  intros Hcut Hk Hjobs (st & jobs' & job & Hne & Hcol & Hr & Hjobs' & Hjob & Hpre & Hhit).
  rewrite Hjobs in Hjobs'. injection Hjobs' as <-.
  unfold fetch_jobs_for_keyword. rewrite Hcut.
  assert (Hlen : length (take k pages) = k).
  { apply length_take_le. apply lookup_lt_Some in Hjobs. lia. }
  replace (Z.to_nat max_pages) with (length (take k pages) + S (Z.to_nat max_pages - S k))%nat
    by lia.
  rewrite (fetch_loop_prefix pages keyword cutoff max_pages (take k pages)
             0%nat _ start st); try done.
  2: { intros j Hj. simpl. rewrite lookup_take_lt; [done|lia]. }
  2: { lia. }
  rewrite Hlen.
  pose proof (collect_pages_page _ _ _ _ Hcol) as [Hpage _].
  rewrite Hlen in Hpage. change (page start) with 1 in *.
  (* the page on which the cutoff is hit *)
  assert (Hsplit : jobs = take i jobs ++ job :: drop (S i) jobs).
  { by rewrite <- (take_drop_middle jobs i job) at 1. }
  assert (Hpage_jobs : process_jobs cutoff st jobs
            = mark_cutoff <$> process_jobs cutoff st_i (drop (S i) jobs)).
  { rewrite Hsplit at 1. rewrite process_jobs_app, Hpre. simpl.
    rewrite (process_job_hit _ _ _ _ Hhit). simpl.
    apply process_jobs_mark. }
  assert (Hserve : serve pages keyword (page st)
            = Ok {| status_code := 200; data := jobs |}).
  { rewrite Hpage, Z.add_comm, serve_page, Hjobs. done. }
  assert (Hjobs_ne : jobs ≠ []).
  { intros ->. by rewrite lookup_nil in Hjob. }
  destruct (process_jobs cutoff st_i (drop (S i) jobs)) as [st_end|e] eqn:Hrest.
  - rewrite (fetch_loop_turn fromisoformat (serve pages) _ keyword cutoff
               max_pages st {| status_code := 200; data := jobs |}
               (mark_cutoff st_end)); try done; [|lia].
    rewrite fetch_loop_stop by done.
    rewrite page_events_snoc, Hpage. done.
  - rewrite (fetch_loop_raise fromisoformat (serve pages) _ keyword cutoff
               max_pages st {| status_code := 200; data := jobs |} e);
      try done; [|lia].
    simpl. by rewrite Hpage, (Z.add_comm 1).
Qed.

End CollectorPages.

(** *** Sample runs *)

Example sample_cutoff_ok : sub_days sample_now 90 = Ok sample_cutoff.
Proof. reflexivity. Qed.

Example sample_run_plain :
  fetch_jobs_for_keyword fromisoformat_basic
    (serve [[recent_listing "1"; recent_listing "2"]; [recent_listing "3"]])
    sample_now "ai engineer" 90 160
  = (page_events "ai engineer" 1 2 ++ [EvGet "ai engineer" 3],
     Ok [recent_record "1"; recent_record "2"; recent_record "3"]).
Proof. vm_compute. reflexivity. Qed.

Example sample_run_stale_first :
  fetch_jobs_for_keyword fromisoformat_basic
    (serve [[stale_listing (Some "1"); recent_listing "2"]; [recent_listing "3"]])
    sample_now "ai engineer" 90 160
  = (page_events "ai engineer" 1 1, Ok [recent_record "2"]).
Proof. vm_compute. reflexivity. Qed.

Example sample_run_stale_without_id :
  fetch_jobs_for_keyword fromisoformat_basic
    (serve [[stale_listing None]; [recent_listing "2"]])
    sample_now "ai engineer" 90 160
  = (page_events "ai engineer" 1 2 ++ [EvGet "ai engineer" 3],
     Ok [recent_record "2"]).
Proof. vm_compute. reflexivity. Qed.

Lemma stale_listing_older id :
  older_than fromisoformat_basic sample_cutoff (stale_listing id).
Proof.
  exists "2024-01-15T10:00:00Z", (mk_datetime 2024 1 15 10 0 0 0 utc).
  repeat split; reflexivity.
Qed.

Lemma recent_listing_record id :
  record_of fromisoformat_basic (recent_listing id) (recent_record id).
Proof.
  exists id, "2024-05-20T10:00:00Z", (mk_datetime 2024 5 20 10 0 0 0 utc).
  repeat split; reflexivity.
Qed.

(** *** The cutoff *)

(** C1, as the specification states it, fails: on the single page
    [stale "1"; recent "2"] the listing after the stale one is collected,
    so the rest of the page is not skipped. *)
Lemma page_rest_not_skipped :
  ∃ out,
    (fetch_jobs_for_keyword fromisoformat_basic
       (serve [[stale_listing (Some "1"); recent_listing "2"]])
       sample_now "ai engineer" 90 160).2 = Ok out
    ∧ ¬ page_rest_skipped fromisoformat_basic sample_cutoff
          [[stale_listing (Some "1"); recent_listing "2"]] out.
Proof.
  exists [recent_record "2"]. split; [vm_compute; reflexivity|].
  intros Hclaim.
  destruct (Hclaim 0%nat 0%nat [stale_listing (Some "1"); recent_listing "2"]
              (stale_listing (Some "1")) eq_refl eq_refl
              (stale_listing_older _)) as [Hrest _].
  apply (Hrest 1%nat (recent_listing "2") (recent_record "2"));
    [lia | done | apply recent_listing_record | apply list_elem_of_here].
Qed.

(** C1, amended. When the loop body comes to a listing that has an
    identifier not collected yet and a timestamp strictly older than
    [now − max_age_days], the listings after it on the current page are
    still gone through like any others (those not older than the cutoff are
    collected), and pagination stops with that page: the list returned is
    what the collector holds at the end of that page, so it has no item of
    a later page. *)
Theorem cutoff_hit_finishes_page (fromisoformat : string → result datetime)
    now keyword max_age_days max_pages cutoff pages (k i : nat) jobs st_i st_end :
  sub_days now max_age_days = Ok cutoff →
  Z.of_nat k < max_pages →
  pages !! k = Some jobs →
  cutoff_hit fromisoformat cutoff pages k i st_i →
  process_jobs fromisoformat cutoff st_i (drop (S i) jobs) = Ok st_end →
  (fetch_jobs_for_keyword fromisoformat (serve pages)
     now keyword max_age_days max_pages).2 = Ok (results st_end).
Proof.
  intros Hcut Hk Hjobs Hhit Hrest.
  rewrite (fetch_cutoff_hit fromisoformat now keyword max_age_days max_pages
             cutoff pages k i jobs st_i) by done.
  by rewrite Hrest.
Qed.

Lemma sample_cutoff_hit :
  cutoff_hit fromisoformat_basic sample_cutoff
    [[recent_listing "1"]; [stale_listing (Some "2"); recent_listing "3"];
     [recent_listing "4"]]
    1 0 (keep "1" (recent_record "1") (turn_page start)).
Proof.
  exists (turn_page (keep "1" (recent_record "1") start)),
    [stale_listing (Some "2"); recent_listing "3"], (stale_listing (Some "2")).
  split; [by repeat constructor|].
  split; [vm_compute; reflexivity|].
  split; [reflexivity|]. split; [reflexivity|]. split; [reflexivity|].
  split; [reflexivity|].
  exists "2", "2024-01-15T10:00:00Z", (mk_datetime 2024 1 15 10 0 0 0 utc).
  split; [reflexivity|]. split; [done|].
  split; [vm_compute; set_solver|].
  repeat split; try reflexivity. done.
Defined.

Lemma cutoff_hit_finishes_page_witness :
  (fetch_jobs_for_keyword fromisoformat_basic
     (serve [[recent_listing "1"]; [stale_listing (Some "2"); recent_listing "3"];
             [recent_listing "4"]])
     sample_now "ai engineer" 90 160).2
  = Ok [recent_record "1"; recent_record "3"].
Proof.
  apply (cutoff_hit_finishes_page fromisoformat_basic sample_now "ai engineer"
           90 160 sample_cutoff _ 1 0
           [stale_listing (Some "2"); recent_listing "3"]
           (keep "1" (recent_record "1") (turn_page start))
           (keep "3" (recent_record "3")
              (keep "1" (recent_record "1") (turn_page start)))).
  - reflexivity.
  - lia.
  - reflexivity.
  - exact sample_cutoff_hit.
  - vm_compute. reflexivity.
Defined.

(** C2, as the specification states it, fails: a stale listing without
    identifier is skipped before its date is looked at, so the page after
    it is fetched and its listing is collected. *)
Lemma later_page_not_dropped :
  ¬ later_pages_dropped fromisoformat_basic sample_cutoff
      [[stale_listing None]; [recent_listing "2"]]
      (fetch_jobs_for_keyword fromisoformat_basic
         (serve [[stale_listing None]; [recent_listing "2"]])
         sample_now "ai engineer" 90 160).
Proof.
  intros Hclaim.
  destruct (Hclaim 0%nat [stale_listing None] (stale_listing None) eq_refl
              (list_elem_of_here _ _) (stale_listing_older _)) as [_ Hout].
  apply (Hout [recent_record "2"] 1%nat [recent_listing "2"]
           (recent_listing "2") (recent_record "2"));
    [vm_compute; reflexivity | lia | done | apply list_elem_of_here
    | apply recent_listing_record | apply list_elem_of_here].
Qed.

Lemma cutoff_hit_take fromisoformat cutoff pages pages' (k i : nat) st_i :
  take (S k) pages' = take (S k) pages →
  cutoff_hit fromisoformat cutoff pages k i st_i →
  cutoff_hit fromisoformat cutoff pages' k i st_i.
Proof.
  intros Htake (st & jobs & job & Hne & Hcol & Hr & Hjobs & Hrest).
  assert (Hk : take k pages' = take k pages).
  { replace k with (k `min` S k)%nat by lia.
    by rewrite <- !take_take, Htake. }
  exists st, jobs, job. rewrite Hk. repeat split; try tauto.
  rewrite <- Hjobs, <- (lookup_take_lt pages' (S k) k),
    <- (lookup_take_lt pages (S k) k), Htake by lia. done.
Qed.

(** C2, amended. Once the loop body has come to a listing that has an
    identifier not collected yet and a timestamp older than the cutoff, no
    page after the current one is fetched or gone through: every request
    of the run is for that page or an earlier one, and the run (its
    requests and what it returns) is the same whatever the later pages
    hold. *)
Theorem cutoff_hit_stops_pagination (fromisoformat : string → result datetime)
    now keyword max_age_days max_pages cutoff pages (k i : nat) st_i :
  sub_days now max_age_days = Ok cutoff →
  Z.of_nat k < max_pages →
  cutoff_hit fromisoformat cutoff pages k i st_i →
  (∀ kw p,
     EvGet kw p ∈ (fetch_jobs_for_keyword fromisoformat (serve pages)
                     now keyword max_age_days max_pages).1 →
     p <= Z.of_nat k + 1)
  ∧ (∀ pages',
       take (S k) pages' = take (S k) pages →
       fetch_jobs_for_keyword fromisoformat (serve pages')
         now keyword max_age_days max_pages
       = fetch_jobs_for_keyword fromisoformat (serve pages)
           now keyword max_age_days max_pages).
Proof.
  intros Hcut Hk Hhit.
  assert (Hjobs : ∃ jobs, pages !! k = Some jobs)
    by (destruct Hhit as (? & jobs & ? & ? & ? & ? & ? & ?); eauto).
  destruct Hjobs as [jobs Hjobs].
  split.
  - intros kw p.
    rewrite (fetch_cutoff_hit fromisoformat now keyword max_age_days max_pages
               cutoff pages k i jobs st_i) by done.
    destruct (process_jobs fromisoformat cutoff st_i (drop (S i) jobs));
      cbn [fst].
    + intros H%page_events_pages. lia.
    + rewrite elem_of_app, list_elem_of_singleton.
      intros [H%page_events_pages|[= _ ->]]; lia.
  - intros pages' Htake.
    rewrite (fetch_cutoff_hit fromisoformat now keyword max_age_days max_pages
               cutoff pages k i jobs st_i) by done.
    apply fetch_cutoff_hit; try done.
    + rewrite <- Hjobs, <- (lookup_take_lt pages' (S k) k),
        <- (lookup_take_lt pages (S k) k), Htake by lia. done.
    + by eapply cutoff_hit_take.
Qed.

Lemma cutoff_hit_stops_pagination_witness :
  (∀ kw p,
     EvGet kw p ∈ (fetch_jobs_for_keyword fromisoformat_basic
                     (serve [[recent_listing "1"];
                             [stale_listing (Some "2"); recent_listing "3"];
                             [recent_listing "4"]])
                     sample_now "ai engineer" 90 160).1 →
     p <= 2)
  ∧ fetch_jobs_for_keyword fromisoformat_basic
      (serve [[recent_listing "1"];
              [stale_listing (Some "2"); recent_listing "3"];
              [recent_listing "5"]; [recent_listing "6"]])
      sample_now "ai engineer" 90 160
    = fetch_jobs_for_keyword fromisoformat_basic
        (serve [[recent_listing "1"];
                [stale_listing (Some "2"); recent_listing "3"];
                [recent_listing "4"]])
        sample_now "ai engineer" 90 160.
Proof.
  destruct (cutoff_hit_stops_pagination fromisoformat_basic sample_now
              "ai engineer" 90 160 sample_cutoff _ 1 0 _
              eq_refl ltac:(lia) sample_cutoff_hit) as [Hgets Hsame].
  split; [exact Hgets|]. apply Hsame. reflexivity.
Defined.

(** *** Deduplication *)

(** C3. Whatever the pages hold, the list [fetch_jobs_for_keyword] returns
    has each job identifier at most once; and a listing whose identifier is
    already collected is dropped by the loop body without an exception,
    the collector staying as it is. *)
Theorem fetch_jobs_identifiers_distinct
    (fromisoformat : string → result datetime)
    (server : string → Z → result response)
    now keyword max_age_days max_pages evs rs :
  fetch_jobs_for_keyword fromisoformat server now keyword max_age_days max_pages
  = (evs, Ok rs) →
  NoDup (job_id <$> rs)
  ∧ (∀ cutoff st job id,
       raw_id job = Some id → id ∈ seen_ids st →
       process_job fromisoformat cutoff st job = Ok st).
Proof.
  intros Hrun. split; [|intros; by eapply process_job_seen].
  unfold fetch_jobs_for_keyword in Hrun.
  destruct (sub_days now max_age_days) as [cutoff|e]; [|done].
  eapply fetch_loop_inv in Hrun as [Hnd _]; [|apply collector_inv_start].
  done.
Qed.

Lemma fetch_jobs_identifiers_distinct_witness :
  NoDup ["1"; "2"; "3"]
  ∧ process_job fromisoformat_basic sample_cutoff
      (keep "1" (recent_record "1") start) (recent_listing "1")
    = Ok (keep "1" (recent_record "1") start).
Proof.
  destruct (fetch_jobs_identifiers_distinct fromisoformat_basic
              (serve [[recent_listing "1"; recent_listing "1"; recent_listing "2"];
                      [recent_listing "2"; recent_listing "3"]])
              sample_now "ai engineer" 90 160
              (page_events "ai engineer" 1 2 ++ [EvGet "ai engineer" 3])
              [recent_record "1"; recent_record "2"; recent_record "3"])
    as [Hnd Hdrop].
  - vm_compute. reflexivity.
  - split; [exact Hnd|]. apply (Hdrop _ _ _ "1"); [reflexivity|].
    vm_compute. set_solver.
Defined.

(** *** Nothing older than the cutoff *)

(** C10. Every record of the list [fetch_jobs_for_keyword] returns has a
    listing date that is not before the cutoff [now − max_age_days]: the
    comparison [listing_date < cutoff] is false for it, that is, its
    instant is at or after the instant of the cutoff. *)
Theorem fetch_jobs_none_older
    (fromisoformat : string → result datetime)
    (server : string → Z → result response)
    now keyword max_age_days max_pages cutoff evs rs r :
  sub_days now max_age_days = Ok cutoff →
  fetch_jobs_for_keyword fromisoformat server now keyword max_age_days max_pages
  = (evs, Ok rs) →
  r ∈ rs →
  dt_lt (listing_date r) cutoff = Ok false
  ∧ (∀ off_c, tzinfo cutoff = Some off_c →
       ∃ off, tzinfo (listing_date r) = Some off
              ∧ wall_us cutoff - off_c <= wall_us (listing_date r) - off).
Proof.
  intros Hcut Hrun Hr. unfold fetch_jobs_for_keyword in Hrun.
  rewrite Hcut in Hrun.
  eapply fetch_loop_inv in Hrun as [_ Hold]; [|apply collector_inv_start].
  rewrite Forall_forall in Hold. specialize (Hold r Hr).
  split; [done|]. intros off_c Hc. unfold dt_lt in Hold. rewrite Hc in Hold.
  destruct (tzinfo (listing_date r)) as [off|]; [|done].
  exists off. split; [done|]. injection Hold as Hlt.
  apply Z.ltb_ge in Hlt. lia.
Qed.

Lemma fetch_jobs_none_older_witness :
  dt_lt (mk_datetime 2024 5 20 10 0 0 0 utc) sample_cutoff = Ok false
  ∧ (∀ off_c, tzinfo sample_cutoff = Some off_c →
       ∃ off, tzinfo (mk_datetime 2024 5 20 10 0 0 0 utc) = Some off
              ∧ wall_us sample_cutoff - off_c
                <= wall_us (mk_datetime 2024 5 20 10 0 0 0 utc) - off).
Proof.
  apply (fetch_jobs_none_older fromisoformat_basic
           (serve [[stale_listing (Some "1"); stale_listing (Some "4");
                    recent_listing "2"; stale_listing (Some "3")]])
           sample_now "ai engineer" 90 160 sample_cutoff
           (page_events "ai engineer" 1 1) [recent_record "2"]
           (recent_record "2")).
  - reflexivity.
  - vm_compute. reflexivity.
  - apply list_elem_of_here.
Defined.

(** ** The detail cache filler *)

Lemma requests_made_act a w :
  requests_made (act a w)
  = (requests_made w + (if is_request a then 1 else 0))%nat.
Proof.
  unfold requests_made, act. simpl. rewrite List.filter_app, length_app.
  simpl. by destruct (is_request a).
Qed.

Lemma requests_made_write path text w :
  requests_made (write_text path text w) = requests_made w.
Proof.
  unfold requests_made, write_text. simpl. rewrite List.filter_app, length_app.
  simpl. lia.
Qed.

Lemma cacheable_not_retryable o : cacheable o = true → retryable o = false.
Proof.
  destruct o as [|status text]; simpl; [done|].
  intros [H _]%andb_prop. apply Z.eqb_eq in H as ->. done.
Qed.

Lemma backoffs_app l1 l2 : backoffs (l1 ++ l2) = (backoffs l1 + backoffs l2)%nat.
Proof. unfold backoffs. by rewrite List.filter_app, length_app. Qed.

Lemma requests_app l1 l2 : requests (l1 ++ l2) = requests l1 ++ requests l2.
Proof. apply omap_app. Qed.

Lemma written_app l1 l2 : written (l1 ++ l2) = written l1 ∪ written l2.
Proof. unfold written. rewrite omap_app, list_to_set_app_L. done. Qed.

Lemma written_nil : written [] = ∅.
Proof. reflexivity. Qed.

Lemma written_cons a l :
  written (a :: l)
  = match a with WriteText p _ => {[p]} ∪ written l | _ => written l end.
Proof. by destruct a. Qed.

Lemma never_overwrites_app existing l1 l2 :
  never_overwrites existing (l1 ++ l2)
  = never_overwrites existing l1
    && never_overwrites (existing ∪ written l1) l2.
Proof.
  revert existing. induction l1 as [|a l1 IH]; intros existing.
  - rewrite written_nil. simpl. f_equal. set_solver.
  - rewrite written_cons.
    destruct a as [url|seconds|p text|msg]; simpl; rewrite IH; try done.
    rewrite <- andb_assoc. do 3 f_equal. set_solver.
Qed.

Lemma never_overwrites_mono existing existing' l :
  existing' ⊆ existing →
  never_overwrites existing l = true → never_overwrites existing' l = true.
Proof.
  revert existing existing'. induction l as [|a l IH]; intros E E' Hsub; [done|].
  destruct a as [url|seconds|p text|msg]; simpl; eauto.
  intros [Hp Hl]%andb_prop. apply bool_decide_eq_true in Hp.
  apply andb_true_intro. split.
  - apply bool_decide_eq_true. set_solver.
  - eapply IH; [|done]. set_solver.
Qed.

Section CacheFiller.

Variable network : nat → string → outcome.

(** What the attempts for one identifier do, from any round of the loop:
    [n] being the number of retryable outcomes before the first that is
    not (among the rounds left), the loop makes [n + 1] requests, or
    all the rounds left if every outcome is retryable; it sleeps the
    backoff [n] times; and it writes the cache file if the outcome after
    the retryable ones is cacheable, and nothing otherwise. *)
Lemma attempt_loop_spec idx total job_id (fuel : nat) :
  ∀ attempt w,
    Z.of_nat fuel = MAX_ATTEMPTS - attempt →
    let url := JOB_DETAIL_URL job_id in
    let n := leading_retryable network (requests_made w) url fuel in
    let w' := attempt_loop network fuel idx total job_id attempt w in
    ∃ delta,
      log w' = log w ++ delta
      ∧ requests delta = replicate (S n `min` fuel) url
      ∧ backoffs delta = n
      ∧ (∀ existing, (detail_path job_id ∉ existing) →
           never_overwrites existing delta = true)
      ∧ match network (requests_made w + n) url with
        | Responded status text =>
            if bool_decide (n < fuel)%nat && cacheable (Responded status text)
            then files w' = <[detail_path job_id := text]> (files w)
                 ∧ written delta = {[detail_path job_id]}
            else files w' = files w ∧ written delta = ∅
        | Failed => files w' = files w ∧ written delta = ∅
        end.
Proof.
  induction fuel as [|fuel IH]; intros attempt w Hfuel url n w'.
  - exists []. subst n w'. simpl. rewrite app_nil_r.
    repeat split; try done. by destruct (network _ _).
  - assert (Hlt : (attempt <? MAX_ATTEMPTS) = true) by (apply Z.ltb_lt; lia).
    assert (Hfuel' : Z.of_nat fuel = MAX_ATTEMPTS - (attempt + 1)) by lia.
    subst n w'. cbn [attempt_loop leading_retryable].
    rewrite Hlt. fold url.
    set (w1 := act (Request url) w).
    assert (Hr1 : requests_made w1 = S (requests_made w)).
    { unfold w1. rewrite requests_made_act. simpl. lia. }
    destruct (network (requests_made w) url) as [|status text] eqn:Hout.
    + (* transport failure: back off and try again *)
      set (w2 := act (Pause BACKOFF_SECONDS)
                   (act (Print (MsgAttemptFailed idx total job_id (attempt + 1))) w1)).
      assert (Hr2 : requests_made w2 = S (requests_made w)).
      { unfold w2. rewrite !requests_made_act. simpl. lia. }
      destruct (IH (attempt + 1) w2 Hfuel') as (delta & Hlog & Hreq & Hback & Hnever & Hfiles).
      fold url in Hreq, Hfiles. rewrite Hr2 in Hback, Hreq, Hfiles.
      simpl retryable. cbv iota.
      exists ([Request url; Print (MsgAttemptFailed idx total job_id (attempt + 1));
               Pause BACKOFF_SECONDS] ++ delta).
      split; [rewrite Hlog; unfold w2, w1, act; simpl; by rewrite <- !app_assoc|].
      split; [rewrite requests_app, Hreq; simpl; done|].
      split; [rewrite backoffs_app, Hback; done|].
      split; [intros E HE; simpl; by apply Hnever|].
      rewrite written_app.
      replace (requests_made w + S (leading_retryable network (S (requests_made w)) url fuel))%nat
        with (S (requests_made w) + leading_retryable network (S (requests_made w)) url fuel)%nat
        by lia.
      destruct (network (S (requests_made w)
                + leading_retryable network (S (requests_made w)) url fuel)%nat
                url) as [|status text]; [|].
      * destruct Hfiles as [-> ->]. split; [done|]. set_solver.
      * rewrite (bool_decide_ext _
                   (leading_retryable network (S (requests_made w)) url fuel < fuel)%nat)
          by lia.
        revert Hfiles.
        destruct (bool_decide _ && _); intros [-> ->]; split; try done;
          set_solver.
    + simpl retryable. unfold cacheable.
      destruct ((status =? 200) && strip_nonempty text) eqn:Hok.
      * (* cached *)
        assert (H429 : (status =? 429) = false).
        { apply andb_prop in Hok as [->%Z.eqb_eq _]. done. }
        rewrite H429. rewrite Nat.add_0_r, Hout.
        rewrite bool_decide_eq_true_2 by lia. unfold cacheable. rewrite Hok.
        simpl andb. cbv iota.
        exists ([Request url; WriteText (detail_path job_id) text]
                ++ (if idx mod 20 =? 0
                    then [Print (MsgCached idx total job_id)] else [])
                ++ [Pause DELAY_SECONDS]).
        destruct (idx mod 20 =? 0); simpl;
          (split; [by rewrite <- !app_assoc|]);
          (split; [done|]); (split; [reflexivity|]);
          (split; [intros E HE; by rewrite bool_decide_eq_true_2|]);
          (split; [done|]); unfold written; simpl; set_solver.
      * destruct (status =? 429) eqn:H429.
        -- (* rate limited: back off and try again *)
           set (w2 := act (Pause BACKOFF_SECONDS)
                        (act (Print (MsgRateLimited idx total job_id (attempt + 1))) w1)).
           assert (Hr2 : requests_made w2 = S (requests_made w)).
           { unfold w2. rewrite !requests_made_act. simpl. lia. }
           destruct (IH (attempt + 1) w2 Hfuel')
             as (delta & Hlog & Hreq & Hback & Hnever & Hfiles).
           fold url in Hreq, Hfiles. rewrite Hr2 in Hback, Hreq, Hfiles.
           exists ([Request url;
                    Print (MsgRateLimited idx total job_id (attempt + 1));
                    Pause BACKOFF_SECONDS] ++ delta).
           split; [rewrite Hlog; unfold w2, w1, act; simpl; by rewrite <- !app_assoc|].
           split; [rewrite requests_app, Hreq; simpl; done|].
           split; [rewrite backoffs_app, Hback; done|].
           split; [intros E HE; simpl; by apply Hnever|].
           rewrite written_app.
           replace (requests_made w + S (leading_retryable network (S (requests_made w)) url fuel))%nat
             with (S (requests_made w) + leading_retryable network (S (requests_made w)) url fuel)%nat
             by lia.
           unfold cacheable in Hfiles.
           destruct (network (S (requests_made w)
                + leading_retryable network (S (requests_made w)) url fuel)%nat
                url) as [|status' text']; [|].
           ++ destruct Hfiles as [-> ->]. split; [done|]. set_solver.
           ++ rewrite (bool_decide_ext _
                        (leading_retryable network (S (requests_made w)) url fuel < fuel)%nat)
                by lia.
              revert Hfiles.
              destruct (bool_decide _ && _); intros [-> ->]; split; try done;
                set_solver.
        -- (* any other answer: give up on this identifier *)
           rewrite Nat.add_0_r, Hout. unfold cacheable. rewrite Hok, andb_false_r.
           exists [Request url; Print (MsgUnexpected idx total job_id status)].
           repeat split; try done. simpl. by rewrite <- app_assoc.
Qed.



(** What going through one identifier does to the cache directory: the
    files there keep their content, a file appears only where the log
    has a write, no write goes to an existing file, and a request is
    made only for an identifier without cache file. *)
Lemma cache_one_spec idx total job_id w :
  ∃ delta,
    log (cache_one network idx total job_id w) = log w ++ delta
    ∧ files w ⊆ files (cache_one network idx total job_id w)
    ∧ dom (files (cache_one network idx total job_id w))
      = dom (files w) ∪ written delta
    ∧ never_overwrites (dom (files w)) delta = true
    ∧ (∀ u, u ∈ requests delta →
         u = JOB_DETAIL_URL job_id ∧ detail_path job_id ∉ dom (files w)).
Proof.
  unfold cache_one, exists_. case_bool_decide as Hexists.
  - exists []. rewrite app_nil_r, written_nil.
    split; [done|]. split; [done|]. split; [set_solver|]. split; [done|].
    by intros u ?%elem_of_nil.
  - destruct (attempt_loop_spec idx total job_id (Z.to_nat MAX_ATTEMPTS) 0 w)
      as (delta & Hlog & Hreq & _ & Hnever & Hfiles); [done|].
    exists delta. split; [done|].
    assert (Hnone : files w !! detail_path job_id = None)
      by (by apply not_elem_of_dom).
    assert (Hboth : files w ⊆ files (attempt_loop network (Z.to_nat MAX_ATTEMPTS)
                                       idx total job_id 0 w)
              ∧ dom (files (attempt_loop network (Z.to_nat MAX_ATTEMPTS)
                              idx total job_id 0 w))
                = dom (files w) ∪ written delta).
    { destruct (network _ _) as [|status text].
      - destruct Hfiles as [-> ->]. split; [done|set_solver].
      - destruct (bool_decide _ && _); destruct Hfiles as [-> ->].
        + split; [by apply insert_subseteq|]. rewrite dom_insert_L. set_solver.
        + split; [done|set_solver]. }
    destruct Hboth as [Hsub Hdom].
    split; [done|]. split; [done|]. split; [by apply Hnever|].
    intros u Hu. rewrite Hreq in Hu. by apply elem_of_replicate in Hu as [-> _].
Qed.

Lemma cache_loop_spec jobs :
  ∀ idx total w,
    ∃ delta,
      log (cache_loop network idx total jobs w) = log w ++ delta
      ∧ files w ⊆ files (cache_loop network idx total jobs w)
      ∧ dom (files (cache_loop network idx total jobs w))
        = dom (files w) ∪ written delta
      ∧ never_overwrites (dom (files w)) delta = true
      ∧ (∀ u, u ∈ requests delta →
           ∃ id, id ∈ jobs ∧ u = JOB_DETAIL_URL id
                 ∧ detail_path id ∉ dom (files w)).
Proof.
  induction jobs as [|job_id jobs IH]; intros idx total w; simpl.
  - exists []. rewrite app_nil_r, written_nil.
    split; [done|]. split; [done|]. split; [set_solver|]. split; [done|].
    by intros u ?%elem_of_nil.
  - destruct (cache_one_spec idx total job_id w)
      as (d1 & Hlog1 & Hsub1 & Hdom1 & Hnever1 & Hreq1).
    destruct (IH (idx + 1) total (cache_one network idx total job_id w))
      as (d2 & Hlog2 & Hsub2 & Hdom2 & Hnever2 & Hreq2).
    exists (d1 ++ d2).
    split; [by rewrite Hlog2, Hlog1, app_assoc|].
    split; [by etrans|].
    split; [rewrite Hdom2, Hdom1, written_app; set_solver|].
    split.
    + rewrite never_overwrites_app, Hnever1, <- Hdom1, Hnever2. done.
    + intros u. rewrite requests_app, elem_of_app. intros [Hu|Hu].
      * destruct (Hreq1 u Hu) as [-> Hfresh]. exists job_id.
        split; [apply list_elem_of_here|done].
      * destruct (Hreq2 u Hu) as (id & Hid & -> & Hfresh). exists id.
        split; [by apply list_elem_of_further|]. split; [done|].
        intros Hin. apply Hfresh. rewrite Hdom1. set_solver.
Qed.

(** When every identifier has its cache file, the loop does nothing. *)
Lemma cache_loop_all_cached jobs :
  ∀ idx total w,
    (∀ id, id ∈ jobs → detail_path id ∈ dom (files w)) →
    cache_loop network idx total jobs w = w.
Proof.
  induction jobs as [|job_id jobs IH]; intros idx total w Hall; simpl; [done|].
  unfold cache_one, exists_.
  rewrite bool_decide_eq_true_2 by (apply Hall, list_elem_of_here).
  apply IH. intros id Hid. by apply Hall, list_elem_of_further.
Qed.

End CacheFiller.

Lemma JOB_DETAIL_URL_inj id1 id2 :
  JOB_DETAIL_URL id1 = JOB_DETAIL_URL id2 → id1 = id2.
Proof. unfold JOB_DETAIL_URL. apply (inj (String.app _)). Qed.



Example sample_retries :
  log (cache_one sample_network 1 1 "123" empty_world)
  = [Request (JOB_DETAIL_URL "123"); Print (MsgAttemptFailed 1 1 "123" 1);
     Pause BACKOFF_SECONDS;
     Request (JOB_DETAIL_URL "123"); Print (MsgRateLimited 1 1 "123" 2);
     Pause BACKOFF_SECONDS;
     Request (JOB_DETAIL_URL "123"); Print (MsgRateLimited 1 1 "123" 3);
     Pause BACKOFF_SECONDS;
     Request (JOB_DETAIL_URL "123");
     WriteText (detail_path "123") "# AI Engineer"; Pause DELAY_SECONDS].
Proof. vm_compute. reflexivity. Qed.

(** C5. A run of [cache_details] never deletes or overwrites a cache file:
    the files there before the run have the same content after it, and no
    write of the run goes to a file that exists when it is made. Run
    twice over the same identifiers and cache directory, the second run
    makes no request for an identifier that has its cache file after the
    first, and leaves the content of every file as the first run left it;
    if the first run cached every identifier, the second makes no request
    and changes no file. *)
Theorem cache_details_idempotent (network1 network2 : nat → string → outcome)
    jobs w0 w1 w2 :
  cache_details network1 (Some jobs) w0 = Ok w1 →
  cache_details network2 (Some jobs) w1 = Ok w2 →
  ∃ delta1 delta2,
    log w1 = log w0 ++ delta1 ∧ log w2 = log w1 ++ delta2
    ∧ files w0 ⊆ files w1 ∧ files w1 ⊆ files w2
    ∧ never_overwrites (dom (files w0)) delta1 = true
    ∧ never_overwrites (dom (files w1)) delta2 = true
    ∧ (∀ id, detail_path id ∈ dom (files w1) →
         JOB_DETAIL_URL id ∉ requests delta2)
    ∧ ((∀ id, id ∈ jobs → detail_path id ∈ dom (files w1)) →
       requests delta2 = [] ∧ files w2 = files w1).
Proof.
  unfold cache_details. intros [= <-] [= <-].
  set (p0 := Print (MsgRemaining _)).
  destruct (cache_loop_spec network1 jobs 1 (Z.of_nat (length jobs)) (act p0 w0))
    as (d1 & Hlog1 & Hsub1 & _ & Hnever1 & _).
  remember (cache_loop network1 1 (Z.of_nat (length jobs)) jobs (act p0 w0))
    as w1 eqn:Hw1.
  set (p1 := Print (MsgRemaining _)).
  destruct (cache_loop_spec network2 jobs 1 (Z.of_nat (length jobs)) (act p1 w1))
    as (d2 & Hlog2 & Hsub2 & _ & Hnever2 & Hreq2).
  exists (p0 :: d1), (p1 :: d2).
  split; [rewrite Hlog1; simpl; by rewrite <- app_assoc|].
  split; [rewrite Hlog2; simpl; by rewrite <- app_assoc|].
  split; [done|]. split; [done|]. split; [done|]. split; [done|]. split.
  - intros id Hid Hin. change (requests (p1 :: d2)) with (requests d2) in Hin.
    destruct (Hreq2 _ Hin) as (id' & _ & Heq & Hfresh).
    apply JOB_DETAIL_URL_inj in Heq as <-. done.
  - intros Hall. rewrite cache_loop_all_cached by done. split; [|done].
    change (requests (p1 :: d2)) with (requests d2).
    rewrite cache_loop_all_cached in Hlog2 by done. simpl in Hlog2.
    assert (d2 = []) as ->; [|done].
    apply (app_inv_head (log w1 ++ [p1])). by rewrite app_nil_r.
Qed.

Lemma cache_details_idempotent_witness :
  ∃ w1 w2,
    cache_details sample_network (Some ["123"; "456"]) empty_world = Ok w1
    ∧ cache_details missing_network (Some ["123"; "456"]) w1 = Ok w2
    ∧ files w1 ⊆ files w2.
Proof.
  eexists _, _. split; [reflexivity|]. split; [reflexivity|].
  destruct (cache_details_idempotent sample_network missing_network
              ["123"; "456"] empty_world _ _ eq_refl eq_refl)
    as (d1 & d2 & _ & _ & _ & Hkept & _).
  exact Hkept.
Defined.

(** ** The skill extractor *)

Section Skills.

Variable re_search : string → string → bool.

Lemma matching_labels_subset table text hits :
  matching_labels table text hits ⊆ hits ∪ list_to_set (table.*1).
Proof.
  revert hits. induction table as [|[label pattern] table IH]; intros hits; simpl.
  - set_solver.
  - etrans; [apply IH|]. destruct (pattern text); set_solver.
Qed.

Lemma extract_skills_subset text : extract_skills re_search text ⊆ skill_labels.
Proof.
  unfold extract_skills, SKILL_REGEX, build_skill_regex, skill_labels.
  etrans; [apply matching_labels_subset|].
  rewrite <- list_fmap_compose. simpl.
  apply union_least; [set_solver|]. apply reflexive_eq. f_equal.
Qed.

Lemma dom_counter_incr key (counts : gmap string Z) :
  dom (counter_incr key counts) = {[key]} ∪ dom counts.
Proof. unfold counter_incr. apply dom_insert_L. Qed.

Lemma dom_foldr_counter_incr keys (counts : gmap string Z) :
  dom (foldr counter_incr counts keys) = list_to_set keys ∪ dom counts.
Proof.
  induction keys as [|key keys IH]; simpl; [set_solver|].
  rewrite dom_counter_incr, IH. set_solver.
Qed.

Lemma skill_counts_dom records :
  ∀ counts, dom (skill_counts re_search counts records)
            ⊆ dom counts ∪ skill_labels.
Proof.
  induction records as [|record records IH]; intros counts;
    cbn [skill_counts].
  - set_solver.
  - destruct (truthy (description_text record)); [|apply IH].
    etrans; [apply IH|]. rewrite dom_foldr_counter_incr.
    pose proof (extract_skills_subset (default "" (description_text record)))
      as Hsub.
    clear IH. revert Hsub. generalize skill_labels.
    generalize (extract_skills re_search (default "" (description_text record))).
    intros hits labels Hsub. set_solver.
Qed.

End Skills.

Lemma sorted_Permutation {A} (lt : A → A → bool) (items : list A) :
  sorted lt items ≡ₚ items.
Proof. apply merge_sort_Permutation. Qed.

(** C9. Whatever the text, the set [extract_skills] returns holds labels
    of the skill lexicon only, that is, keys of [SKILL_PATTERNS]; and so
    do the keys of the map [compute_skill_frequencies] returns. *)
Theorem extract_skills_within_lexicon (re_search : string → string → bool)
    (markdown_text : string) (records : list JobRecord) :
  extract_skills re_search markdown_text ⊆ skill_labels
  ∧ list_to_set (compute_skill_frequencies re_search records).*1 ⊆ skill_labels.
Proof.
  split; [apply extract_skills_subset|].
  unfold compute_skill_frequencies, sort_by_frequency.
  intros label. rewrite elem_of_list_to_set, list_elem_of_fmap.
  intros ([label' count] & -> & Hin). simpl.
  rewrite sorted_Permutation in Hin. apply elem_of_map_to_list in Hin.
  assert (Hl : label' ∈ dom (skill_counts re_search ∅ records))
    by (apply elem_of_dom; by exists count).
  apply (skill_counts_dom re_search records ∅) in Hl.
  rewrite dom_empty_L in Hl. set_solver.
Qed.

(** ** Ordering of the outputs *)

Lemma str_ltb_iff a b : String.ltb a b = true ↔ str_lt a b.
Proof. unfold String.ltb, str_lt. by destruct (String.compare a b). Qed.

Lemma str_ltb_false a b : String.ltb b a = false ↔ String.le a b.
Proof.
  unfold String.ltb, String.le, String.leb, Is_true.
  rewrite (String.compare_antisym a b).
  destruct (String.compare b a); simpl; split; done.
Qed.

Lemma str_le_lt a b : String.le a b → a ≠ b → str_lt a b.
Proof.
  unfold String.le, String.leb, str_lt, Is_true.
  destruct (String.compare a b) eqn:Hc; [|done|done].
  intros _ Hne. by apply String.compare_eq_iff in Hc.
Qed.

Lemma str_lt_irrefl a : ¬ str_lt a a.
Proof.
  unfold str_lt. intros H. pose proof (String.compare_antisym a a) as Ha.
  rewrite H in Ha. done.
Qed.

(** A list sorted by an order, with no two items of the same key, is
    sorted by what the order says of items of distinct keys. *)
Lemma StronglySorted_distinct {A B} (R Q : relation A) (f : A → B) l :
  (∀ a b, R a b → f a ≠ f b → Q a b) →
  StronglySorted R l → NoDup (f <$> l) → StronglySorted Q l.
Proof.
  intros HRQ. induction 1 as [|a l Hl IH Ha]; intros Hnd; [constructor|].
  rewrite fmap_cons in Hnd. apply NoDup_cons in Hnd as [Hfa Hnd].
  constructor; [by apply IH|].
  rewrite Forall_forall in Ha |- *. intros b Hb.
  apply HRQ; [by apply Ha|]. intros Heq. apply Hfa. rewrite Heq.
  by apply list_elem_of_fmap_2.
Qed.

(** *** The skill frequencies *)

Lemma not_after_frequency a b :
  not_after frequency_key_ltb a b
  ↔ b.2 < a.2 ∨ (a.2 = b.2 ∧ String.le a.1 b.1).
Proof.
  unfold not_after, frequency_key_ltb.
  destruct (Z.compare_spec (- b.2) (- a.2)) as [Heq|Hlt|Hgt].
  - rewrite str_ltb_false. split; [intros; right; split; [lia|done]|].
    intros [?|[_ ?]]; [lia|done].
  - split; [done|]. intros [?|[? _]]; lia.
  - split; [intros _; left; lia|done].
Qed.

#[local] Instance not_after_frequency_total : Total (not_after frequency_key_ltb).
Proof.
  intros a b. rewrite !not_after_frequency.
  destruct (Z.lt_trichotomy a.2 b.2) as [?|[?|?]]; [by right; left| |by left; left].
  destruct (total String.le a.1 b.1); [left|right]; right; done.
Qed.

#[local] Instance not_after_frequency_trans :
  Transitive (not_after frequency_key_ltb).
Proof.
  intros a b c. rewrite !not_after_frequency.
  intros [?|[? Hab]] [?|[? Hbc]]; try (left; lia).
  right. split; [lia|]. by etrans.
Qed.

Lemma sort_by_frequency_sorted (counts : gmap string Z) :
  StronglySorted frequency_before (sort_by_frequency counts).
Proof.
  unfold sort_by_frequency, sorted.
  apply (StronglySorted_distinct (not_after frequency_key_ltb) _ fst).
  - intros a b [?|[? Hle]]%not_after_frequency Hne; [by left|].
    right. split; [done|]. by apply str_le_lt.
  - apply StronglySorted_merge_sort; apply _.
  - rewrite merge_sort_Permutation. apply NoDup_fst_map_to_list.
Qed.

(** C7. The entries [compute_skill_frequencies] returns are those of the
    counts, sorted by descending frequency, ties broken by ascending label:
    of two entries, the one with the higher count comes first, and of two
    with the same count the one with the lesser label. In particular the
    counts [{a: 2, b: 3, c: 2}] come out in the order [b, a, c]. *)
Theorem skill_frequencies_ordered (re_search : string → string → bool)
    (counts : gmap string Z) (records : list JobRecord) :
  (sort_by_frequency counts ≡ₚ map_to_list counts
   ∧ StronglySorted frequency_before (sort_by_frequency counts))
  ∧ (compute_skill_frequencies re_search records
     = sort_by_frequency (skill_counts re_search ∅ records)
     ∧ StronglySorted frequency_before
         (compute_skill_frequencies re_search records))
  ∧ sort_by_frequency (<["a" := 2]> (<["b" := 3]> (<["c" := 2]> ∅)))
    = [("b", 3); ("a", 2); ("c", 2)].
Proof.
  split; [split; [apply sorted_Permutation | apply sort_by_frequency_sorted]|].
  split; [split; [done | apply sort_by_frequency_sorted]|].
  vm_compute. reflexivity.
Qed.

(** ** The calendar, continued *)

Lemma days_before_year_mono y y' :
  1 <= y <= y' → days_before_year y <= days_before_year y'.
Proof.
  intros Hy. unfold days_before_year. cbv zeta.
  Z.div_mod_to_equations. lia.
Qed.

Lemma days_before_year_succ y :
  1 <= y →
  days_before_year (y + 1)
  = days_before_year y + 365 + (if is_leap y then 1 else 0).
Proof.
  intros Hy. unfold days_before_year, is_leap. cbv zeta.
  replace (y + 1 - 1) with y by lia.
  destruct (Z.eqb_spec (y mod 4) 0), (Z.eqb_spec (y mod 100) 0),
    (Z.eqb_spec (y mod 400) 0); simpl; Z.div_mod_to_equations; lia.
Qed.

Lemma month_cases m :
  1 <= m <= 12 →
  m = 1 ∨ m = 2 ∨ m = 3 ∨ m = 4 ∨ m = 5 ∨ m = 6
  ∨ m = 7 ∨ m = 8 ∨ m = 9 ∨ m = 10 ∨ m = 11 ∨ m = 12.
Proof. lia. Qed.

Ltac each_month m H :=
  destruct (month_cases m H) as [->|[->|[->|[->|[->|[->|[->|[->|[->|[->|[->| ->]]]]]]]]]]].

(** The days of a month end before the next month begins, and the last
    month ends with the year. *)
Lemma month_fits y m :
  1 <= m <= 12 →
  0 <= days_before_month y m
  ∧ days_before_month y m + days_in_month y m
    <= 365 + (if is_leap y then 1 else 0)
  ∧ days_in_month y m <= 31.
Proof.
  intros Hm. unfold days_before_month, days_in_month.
  each_month m Hm; destruct (is_leap y); vm_compute; repeat split; congruence.
Qed.

Lemma month_before y m m' :
  1 <= m → m < m' → m' <= 12 →
  days_before_month y m + days_in_month y m <= days_before_month y m'.
Proof.
  intros H1 H2 H3. unfold days_before_month, days_in_month.
  assert (Hm : 1 <= m <= 12) by lia. assert (Hm' : 1 <= m' <= 12) by lia.
  each_month m Hm; each_month m' Hm'; try lia;
    destruct (is_leap y); vm_compute; congruence.
Qed.

(** The ordinal of a date of the calendar is in range. *)
Lemma ymd2ord_bounds y m d :
  1 <= y <= 9999 → 1 <= m <= 12 → 1 <= d <= days_in_month y m →
  1 <= ymd2ord y m d <= MAXORDINAL.
Proof.
  intros Hy Hm Hd. unfold ymd2ord.
  destruct (month_fits y m Hm) as (H0 & Hfit & _).
  pose proof (days_before_year_mono 1 y ltac:(lia)) as Hlow.
  pose proof (days_before_year_mono (y + 1) 10000 ltac:(lia)) as Hhigh.
  rewrite days_before_year_succ in Hhigh by lia.
  change (days_before_year 1) with 0 in Hlow.
  change (days_before_year 10000) with MAXORDINAL in Hhigh.
  lia.
Qed.

(** The ordinal grows with the date. *)
Lemma ymd2ord_lt y1 m1 d1 y2 m2 d2 :
  1 <= y1 → 1 <= m1 <= 12 → 1 <= d1 <= days_in_month y1 m1 →
  1 <= y2 → 1 <= m2 <= 12 → 1 <= d2 <= days_in_month y2 m2 →
  date_before (y1, m1, d1) (y2, m2, d2) →
  ymd2ord y1 m1 d1 < ymd2ord y2 m2 d2.
Proof.
  intros Hy1 Hm1 Hd1 Hy2 Hm2 Hd2 Hlt. unfold ymd2ord. simpl in Hlt.
  destruct (month_fits y1 m1 Hm1) as (H1 & Hfit1 & _).
  destruct (month_fits y2 m2 Hm2) as (H2 & Hfit2 & _).
  destruct Hlt as [Hy|[-> [Hm|[-> Hd]]]].
  - pose proof (days_before_year_mono (y1 + 1) y2 ltac:(lia)) as Hmono.
    rewrite days_before_year_succ in Hmono by lia. lia.
  - pose proof (month_before y2 m1 m2 ltac:(lia) Hm ltac:(lia)). lia.
  - lia.
Qed.

Lemma date_before_total a b : date_before a b ∨ a = b ∨ date_before b a.
Proof.
  destruct a as [[y1 m1] d1], b as [[y2 m2] d2]. simpl.
  destruct (Z.lt_trichotomy y1 y2) as [?|[->|?]];
    destruct (Z.lt_trichotomy m1 m2) as [?|[->|?]];
    destruct (Z.lt_trichotomy d1 d2) as [?|[->|?]];
    first [left; lia | right; left; reflexivity | right; right; lia].
Qed.

(** *** [week_floor] *)

Lemma weekday_range d : 0 <= weekday d < 7.
Proof. unfold weekday. apply Z.mod_pos_bound. lia. Qed.

Lemma toordinal_bounds d :
  valid_datetime d → 1 <= toordinal d <= MAXORDINAL.
Proof.
  intros (Hy & Hm & Hd & _). by apply ymd2ord_bounds.
Qed.

(** The Monday of a week is never before the first day of the calendar:
    day 1 is a Monday. *)
Lemma week_start_bounds d :
  valid_datetime d → 1 <= week_start d <= MAXORDINAL.
Proof.
  intros Hd. pose proof (toordinal_bounds d Hd) as Ho.
  unfold week_start, weekday in *. Z.div_mod_to_equations. lia.
Qed.

(** [week_floor] on a datetime object: it raises nothing, and returns
    midnight UTC of the date whose ordinal is [week_start]. *)
Lemma week_floor_spec d :
  valid_datetime d →
  ∃ monday,
    week_floor d = Ok monday
    ∧ (year monday, month monday, day monday) = ord2ymd (week_start d)
    ∧ valid_datetime monday
    ∧ toordinal monday = week_start d
    ∧ weekday monday = 0
    ∧ hour monday = 0 ∧ minute monday = 0 ∧ second monday = 0
    ∧ microsecond monday = 0 ∧ tzinfo monday = utc.
Proof.
  intros Hd. pose proof (week_start_bounds d Hd) as Hws.
  unfold week_floor, sub_days. fold (week_start d).
  destruct (Z.ltb_spec 0 (week_start d)); [|lia].
  destruct (Z.leb_spec (week_start d) MAXORDINAL); [|lia]. simpl.
  destruct (ord2ymd (week_start d)) as [[y m] dd] eqn:Hymd. simpl.
  destruct (ord2ymd_spec _ _ _ _ (proj1 Hws) Hymd) as (Hy & Hm & Hdd & Hord).
  eexists. split; [reflexivity|]. simpl.
  assert (Hy' : y <= 9999).
  { destruct (Z.le_gt_cases y 9999) as [?|Hbig]; [done|]. exfalso.
    pose proof (days_before_year_mono 10000 y ltac:(lia)) as Hmono.
    change (days_before_year 10000) with MAXORDINAL in Hmono.
    destruct (month_fits y m Hm) as (Hpos & _).
    unfold ymd2ord in Hord. lia. }
  split; [done|]. split; [unfold valid_datetime; simpl; lia|].
  split; [done|]. split; [|done].
  unfold weekday, toordinal. simpl. rewrite Hord.
  unfold week_start, weekday. Z.div_mod_to_equations. lia.
Qed.

(** For a datetime in UTC the date it carries is its UTC date. *)
Lemma utc_ordinal_toordinal d :
  utc_timestamp d → utc_ordinal d = toordinal d.
Proof.
  intros [(_ & _ & _ & Hh & Hm & Hs & Hus) Htz].
  unfold utc_ordinal, wall_us. rewrite Htz. simpl.
  Z.div_mod_to_equations. lia.
Qed.

(** ** Formatting dates *)

Lemma all_from_spec k n f i :
  all_from k n f = true → n <= i < n + Z.of_nat k → f i = true.
Proof.
  revert n. induction k as [|k IH]; intros n; simpl; [lia|].
  intros [Hn Hrest]%andb_prop Hi.
  destruct (Z.eq_dec i n) as [->|Hne]; [done|].
  apply (IH (n + 1)); [done|lia].
Qed.

Lemma fmt_0d_2 n :
  0 <= n < 100 →
  fmt_0d 2 n = String (digit (n / 10)) (String (digit (n mod 10)) "").
Proof.
  intros Hn. apply String.eqb_eq.
  apply (all_from_spec 100 0
           (λ n, String.eqb (fmt_0d 2 n)
                   (String (digit (n / 10)) (String (digit (n mod 10)) ""))));
    [vm_compute; reflexivity | lia].
Qed.

Lemma fmt_0d_4 n :
  0 <= n < 10000 →
  fmt_0d 4 n
  = String (digit (n / 1000)) (String (digit (n / 100 mod 10))
      (String (digit (n / 10 mod 10)) (String (digit (n mod 10)) ""))).
Proof.
  intros Hn. apply String.eqb_eq.
  apply (all_from_spec (Z.to_nat 10000) 0
           (λ n, String.eqb (fmt_0d 4 n)
                   (String (digit (n / 1000)) (String (digit (n / 100 mod 10))
                      (String (digit (n / 10 mod 10))
                         (String (digit (n mod 10)) ""))))));
    [vm_compute; reflexivity | lia].
Qed.

Lemma digit_compare a b :
  0 <= a <= 9 → 0 <= b <= 9 → Ascii.compare (digit a) (digit b) = (a ?= b).
Proof.
  intros Ha Hb. unfold Ascii.compare, digit.
  rewrite !N_ascii_embedding by lia.
  rewrite <- N2Z.inj_compare, !N2Z.inj_add, !Z2N.id by lia.
  apply Z.add_compare_mono_l.
Qed.

(** The ten characters of the ISO form of a date of the calendar. *)
Lemma date_isoformat_digits d :
  1 <= year d <= 9999 → 1 <= month d <= 12 → 1 <= day d <= 31 →
  date_isoformat d
  = String (digit (year d / 1000)) (String (digit (year d / 100 mod 10))
      (String (digit (year d / 10 mod 10)) (String (digit (year d mod 10))
      (String "-"
      (String (digit (month d / 10)) (String (digit (month d mod 10))
      (String "-"
      (String (digit (day d / 10)) (String (digit (day d mod 10)) ""))))))))).
Proof.
  intros Hy Hm Hd. unfold date_isoformat.
  rewrite fmt_0d_4, !fmt_0d_2 by lia. reflexivity.
Qed.

(** Numbers of the same width compare as their digits do. *)
Lemma digits_order_2 n n' :
  0 <= n < 100 → 0 <= n' < 100 →
  (n < n' ↔ n / 10 < n' / 10 ∨ (n / 10 = n' / 10 ∧ n mod 10 < n' mod 10))
  ∧ (n = n' ↔ n / 10 = n' / 10 ∧ n mod 10 = n' mod 10)
  ∧ 0 <= n / 10 <= 9 ∧ 0 <= n mod 10 <= 9
  ∧ 0 <= n' / 10 <= 9 ∧ 0 <= n' mod 10 <= 9.
Proof. intros Hn Hn'. Z.div_mod_to_equations. lia. Qed.

Lemma digits_order_4 n n' :
  0 <= n < 10000 → 0 <= n' < 10000 →
  (n < n' ↔
     n / 1000 < n' / 1000
     ∨ (n / 1000 = n' / 1000
        ∧ (n / 100 mod 10 < n' / 100 mod 10
           ∨ (n / 100 mod 10 = n' / 100 mod 10
              ∧ (n / 10 mod 10 < n' / 10 mod 10
                 ∨ (n / 10 mod 10 = n' / 10 mod 10
                    ∧ n mod 10 < n' mod 10))))))
  ∧ (n = n' ↔
       n / 1000 = n' / 1000 ∧ n / 100 mod 10 = n' / 100 mod 10
       ∧ n / 10 mod 10 = n' / 10 mod 10 ∧ n mod 10 = n' mod 10)
  ∧ (0 <= n / 1000 <= 9 ∧ 0 <= n / 100 mod 10 <= 9
     ∧ 0 <= n / 10 mod 10 <= 9 ∧ 0 <= n mod 10 <= 9)
  ∧ (0 <= n' / 1000 <= 9 ∧ 0 <= n' / 100 mod 10 <= 9
     ∧ 0 <= n' / 10 mod 10 <= 9 ∧ 0 <= n' mod 10 <= 9).
Proof. intros Hn Hn'. Z.div_mod_to_equations. lia. Qed.

(** Two dates of the calendar are in the order of their ISO forms. *)
Lemma date_isoformat_lt d1 d2 :
  1 <= year d1 <= 9999 → 1 <= month d1 <= 12 → 1 <= day d1 <= 31 →
  1 <= year d2 <= 9999 → 1 <= month d2 <= 12 → 1 <= day d2 <= 31 →
  str_lt (date_isoformat d1) (date_isoformat d2)
  ↔ date_before (year d1, month d1, day d1) (year d2, month d2, day d2).
Proof.
  intros Hy1 Hm1 Hd1 Hy2 Hm2 Hd2.
  rewrite !date_isoformat_digits by done. unfold str_lt, date_before.
  destruct (digits_order_4 (year d1) (year d2)) as (Hyl & Hye & Hyr1 & Hyr2);
    [lia|lia|].
  destruct (digits_order_2 (month d1) (month d2)) as (Hml & Hme & Hmr); [lia|lia|].
  destruct (digits_order_2 (day d1) (day d2)) as (Hdl & Hde & Hdr); [lia|lia|].
  generalize dependent (year d1 / 1000). generalize dependent (year d2 / 1000).
  generalize dependent (year d1 / 100 mod 10).
  generalize dependent (year d2 / 100 mod 10).
  generalize dependent (year d1 / 10 mod 10).
  generalize dependent (year d2 / 10 mod 10).
  generalize dependent (year d1 mod 10). generalize dependent (year d2 mod 10).
  generalize dependent (month d1 / 10). generalize dependent (month d2 / 10).
  generalize dependent (month d1 mod 10). generalize dependent (month d2 mod 10).
  generalize dependent (day d1 / 10). generalize dependent (day d2 / 10).
  generalize dependent (day d1 mod 10). generalize dependent (day d2 mod 10).
  intros. rewrite Hyl, Hye, Hml, Hme, Hdl.
  clear Hyl Hye Hml Hme Hdl Hy1 Hm1 Hd1 Hy2 Hm2 Hd2.
  cbn [String.compare].
  rewrite !digit_compare by tauto.
  change (Ascii.compare "-" "-") with Eq. cbv iota.
  repeat match goal with
         | |- context [match ?a ?= ?b with Eq => _ | Lt => _ | Gt => _ end] =>
             destruct (Z.compare_spec a b)
         end;
    (split; [intros Hcmp; try discriminate Hcmp | intros Hbefore; try reflexivity;
                                                  exfalso]);
    lia.
Qed.

(** ** The weekly aggregator *)

Lemma str_compare_refl a : String.compare a a = Eq.
Proof.
  pose proof (String.compare_antisym a a) as H.
  by destruct (String.compare a a).
Qed.

Lemma str_lt_le a b : str_lt a b ↔ String.le a b ∧ a ≠ b.
Proof.
  split.
  - intros Hlt. split.
    + unfold str_lt in Hlt. unfold String.le, String.leb. by rewrite Hlt.
    + intros ->. by apply str_lt_irrefl in Hlt.
  - intros [Hle Hne]. by apply str_le_lt.
Qed.

Lemma str_lt_trans a b c : str_lt a b → str_lt b c → str_lt a c.
Proof.
  rewrite !str_lt_le. intros [Hab Hne] [Hbc Hne']. split; [by etrans|].
  intros ->. apply Hne. by apply (anti_symm String.le).
Qed.

Lemma str_lt_flip a b : String.compare b a = Gt ↔ str_lt a b.
Proof.
  unfold str_lt. rewrite (String.compare_antisym a b).
  by destruct (String.compare b a).
Qed.

Lemma not_after_tuple a b :
  not_after tuple_ltb a b ↔ str_lt a.1 b.1 ∨ (a.1 = b.1 ∧ a.2 <= b.2).
Proof.
  unfold not_after, tuple_ltb.
  destruct (String.compare b.1 a.1) eqn:Hc.
  - apply String.compare_eq_iff in Hc. rewrite Hc, Z.ltb_ge. split.
    + intros ?. by right.
    + intros [H%str_lt_irrefl|[_ ?]]; done.
  - split; [done|]. intros [H|[Heq _]].
    + unfold str_lt in H. rewrite (String.compare_antisym a.1 b.1), Hc in H. done.
    + rewrite Heq, str_compare_refl in Hc. done.
  - split; [|done]. intros _. left. by apply str_lt_flip.
Qed.

#[local] Instance not_after_tuple_total : Total (not_after tuple_ltb).
Proof.
  intros a b. rewrite !not_after_tuple.
  destruct (String.compare a.1 b.1) eqn:Hc.
  - apply String.compare_eq_iff in Hc.
    destruct (Z.le_ge_cases a.2 b.2); [left|right]; right; split; done || lia.
  - by left; left.
  - right; left. by apply str_lt_flip.
Qed.

#[local] Instance not_after_tuple_trans : Transitive (not_after tuple_ltb).
Proof.
  intros a b c. rewrite !not_after_tuple.
  intros [Hab|[Hab ?]] [Hbc|[Hbc ?]].
  - left. by eapply str_lt_trans.
  - left. by rewrite <- Hbc.
  - left. by rewrite Hab.
  - right. split; [congruence|lia].
Qed.

Lemma sorted_tuples_by_key (buckets : gmap string Z) :
  StronglySorted (λ a b, str_lt a.1 b.1) (sorted tuple_ltb (map_to_list buckets)).
Proof.
  unfold sorted.
  apply (StronglySorted_distinct (not_after tuple_ltb) _ fst).
  - intros a b [?|[? _]]%not_after_tuple Hne; done.
  - apply StronglySorted_merge_sort; apply _.
  - rewrite merge_sort_Permutation. apply NoDup_fst_map_to_list.
Qed.

(** *** Keys and weeks *)

Lemma valid_day_le_31 d : valid_datetime d → 1 <= day d <= 31.
Proof.
  intros (_ & Hm & Hd & _). destruct (month_fits (year d) (month d) Hm) as (_ & _ & ?).
  lia.
Qed.

(** The keys of two weeks are in the order of the weeks. *)
Lemma week_floor_order d1 d2 m1 m2 :
  valid_datetime d1 → valid_datetime d2 →
  week_floor d1 = Ok m1 → week_floor d2 = Ok m2 →
  (str_lt (date_isoformat m1) (date_isoformat m2)
   ↔ week_start d1 < week_start d2)
  ∧ (date_isoformat m1 = date_isoformat m2 ↔ week_start d1 = week_start d2).
Proof.
  intros Hd1 Hd2 Hm1 Hm2.
  destruct (week_floor_spec d1 Hd1) as (m1' & Hm1' & _ & Hv1 & Ho1 & _).
  destruct (week_floor_spec d2 Hd2) as (m2' & Hm2' & _ & Hv2 & Ho2 & _).
  rewrite Hm1 in Hm1'. rewrite Hm2 in Hm2'.
  injection Hm1' as <-. injection Hm2' as <-.
  rewrite <- Ho1, <- Ho2.
  pose proof (valid_day_le_31 m1 Hv1) as Hday1.
  pose proof (valid_day_le_31 m2 Hv2) as Hday2.
  destruct Hv1 as (Hy1 & Hmo1 & Hdd1 & _), Hv2 as (Hy2 & Hmo2 & Hdd2 & _).
  assert (Hfwd : ∀ a b,
            1 <= year a <= 9999 → 1 <= month a <= 12 →
            1 <= day a <= days_in_month (year a) (month a) →
            1 <= year b <= 9999 → 1 <= month b <= 12 →
            1 <= day b <= days_in_month (year b) (month b) →
            date_before (year a, month a, day a) (year b, month b, day b) →
            toordinal a < toordinal b).
  { intros a b ? ? ? ? ? ? ?. apply ymd2ord_lt; try done; lia. }
  assert (Hlt : str_lt (date_isoformat m1) (date_isoformat m2)
                ↔ toordinal m1 < toordinal m2).
  { rewrite date_isoformat_lt by done. split; [by apply Hfwd|].
    intros Hord.
    destruct (date_before_total (year m1, month m1, day m1)
                (year m2, month m2, day m2)) as [?|[Heq|Hgt]]; [done| |].
    - injection Heq as Hy Hm Hd. unfold toordinal in Hord.
      rewrite Hy, Hm, Hd in Hord. lia.
    - apply Hfwd in Hgt; try done. lia. }
  split; [done|]. split.
  - intros Heq.
    destruct (Z.lt_trichotomy (toordinal m1) (toordinal m2)) as [H|[H|H]]; [|done|].
    + apply Hlt in H. rewrite Heq in H. by apply str_lt_irrefl in H.
    + assert (Hlt' : str_lt (date_isoformat m2) (date_isoformat m1)).
      { rewrite date_isoformat_lt by done.
        destruct (date_before_total (year m2, month m2, day m2)
                    (year m1, month m1, day m1)) as [?|[Heq'|Hgt]]; [done| |].
        - injection Heq' as Hy Hm Hd. unfold toordinal in H.
          rewrite Hy, Hm, Hd in H. lia.
        - apply Hfwd in Hgt; try done. lia. }
      rewrite Heq in Hlt'. by apply str_lt_irrefl in Hlt'.
  - intros Heq.
    destruct (date_before_total (year m1, month m1, day m1)
                (year m2, month m2, day m2)) as [Hb|[Heq'|Hb]].
    + apply Hfwd in Hb; try done. lia.
    + injection Heq' as Hy Hm Hd. unfold date_isoformat. by rewrite Hy, Hm, Hd.
    + apply Hfwd in Hb; try done. lia.
Qed.

(** *** Counting *)

Lemma count_week_cons key r rest :
  count_week key (r :: rest)
  = (match week_key r with
     | Ok k => if String.eqb k key then 1 else 0
     | Raise _ => 0
     end) + count_week key rest.
Proof.
  unfold count_week. simpl.
  destruct (week_key r) as [k|e]; [|lia].
  destruct (String.eqb k key); simpl length; lia.
Qed.

Lemma count_week_nonneg key records : 0 <= count_week key records.
Proof. unfold count_week. lia. Qed.

Lemma week_key_spec r :
  valid_datetime (listing_date r) →
  ∃ monday,
    week_floor (listing_date r) = Ok monday
    ∧ week_key r = Ok (date_isoformat monday).
Proof.
  intros Hv. destruct (week_floor_spec _ Hv) as (monday & Hm & _).
  exists monday. split; [done|]. unfold week_key. by rewrite Hm.
Qed.

(** The loop of [summarise_weekly_counts] raises nothing on datetime
    objects, and adds to each bucket the number of records of its week. *)
Lemma weekly_buckets_spec records :
  Forall (λ r, valid_datetime (listing_date r)) records →
  ∀ buckets,
    ∃ buckets',
      weekly_buckets buckets records = Ok buckets'
      ∧ ∀ key,
          buckets' !! key
          = if count_week key records =? 0 then buckets !! key
            else Some (default 0 (buckets !! key) + count_week key records).
Proof.
  induction 1 as [|r rest Hr Hrest IH]; intros buckets.
  - exists buckets. split; [done|]. intros key. done.
  - destruct (week_key_spec r Hr) as (monday & _ & Hkey).
    destruct (IH (counter_incr (date_isoformat monday) buckets))
      as (buckets' & Hloop & Hlookup).
    exists buckets'. split; [simpl; rewrite Hkey; simpl; exact Hloop|].
    intros key. rewrite Hlookup, count_week_cons, Hkey.
    pose proof (count_week_nonneg key rest) as Hnn.
    unfold counter_incr.
    destruct (String.eqb_spec (date_isoformat monday) key) as [->|Hne].
    + rewrite lookup_insert_eq. simpl.
      destruct (Z.eqb_spec (count_week key rest) 0) as [->|?];
        destruct (Z.eqb_spec (1 + count_week key rest) 0); try lia.
      * f_equal; lia.
      * f_equal; lia.
    + rewrite lookup_insert_ne by done.
      by replace (0 + count_week key rest) with (count_week key rest) by lia.
Qed.

(** C6, as the specification states it, fails: the collector returns the
    listing of 2024-05-20T05:00:00+10:00 with this timestamp; its UTC date
    is Sunday 2024-05-19, of the week of 2024-05-13, but
    [summarise_weekly_counts] counts it in the week of 2024-05-20, the
    Monday of the date the timestamp carries. *)
Lemma weekly_bucket_not_utc_week :
  (fetch_jobs_for_keyword fromisoformat_basic (serve [[offset_listing]])
     sample_now "ai engineer" 90 160).2 = Ok [offset_record]
  ∧ ord2ymd (utc_ordinal (listing_date offset_record)) = (2024, 5, 19)
  ∧ isoformat_of_ordinal (utc_week_start (listing_date offset_record))
    = "2024-05-13"
  ∧ ∃ out,
      summarise_weekly_counts [offset_record] = Ok out
      ∧ out = [("2024-05-20", 1)]
      ∧ ¬ counts_by_utc_week [offset_record] out.
Proof.
  split; [vm_compute; reflexivity|].
  split; [vm_compute; reflexivity|].
  split; [vm_compute; reflexivity|].
  exists [("2024-05-20", 1)].
  split; [vm_compute; reflexivity|]. split; [done|].
  intros Hclaim.
  destruct (Hclaim "2024-05-20" 1) as [Hcount _].
  destruct (Hcount (list_elem_of_here _ _)) as [_ Hone].
  vm_compute in Hone. discriminate Hone.
Qed.

(** C6, amended. For listing records whose timestamps are datetime
    objects, with any offset or none, [summarise_weekly_counts] raises
    nothing and: each record falls in the week whose start is the date its
    timestamp carries (in the timestamp's own offset, not converted to
    UTC) less [weekday()] days, a Monday, taken at 00:00 and labelled UTC,
    the key of the bucket being the ISO form of that date; for a record
    whose timestamp is in UTC this is the week of its UTC date; each bucket
    of the output holds the number of records of its week, and a week
    without record has no bucket; the buckets come in ascending order of
    their keys, which is the ascending order of the week-start dates. A
    record of Wednesday 2024-01-03 falls in the week of 2024-01-01, and one
    of Monday 2024-01-01 00:00:00 UTC in the week that starts with
    itself. *)
Theorem weekly_counts_contract (records : list JobRecord) :
  Forall (λ r, valid_datetime (listing_date r)) records →
  ∃ out,
    summarise_weekly_counts records = Ok out
    ∧ (∀ r, r ∈ records →
         ∃ monday,
           week_floor (listing_date r) = Ok monday
           ∧ week_key r = Ok (date_isoformat monday)
           ∧ toordinal monday
             = toordinal (listing_date r) - weekday (listing_date r)
           ∧ (tzinfo (listing_date r) = utc →
              toordinal monday = utc_week_start (listing_date r))
           ∧ weekday monday = 0
           ∧ hour monday = 0 ∧ minute monday = 0 ∧ second monday = 0
           ∧ microsecond monday = 0 ∧ tzinfo monday = utc)
    ∧ (∀ key n, (key, n) ∈ out ↔ 0 < n ∧ n = count_week key records)
    ∧ StronglySorted (λ a b, str_lt a.1 b.1) out
    ∧ (∀ r1 r2 k1 k2,
         r1 ∈ records → r2 ∈ records →
         week_key r1 = Ok k1 → week_key r2 = Ok k2 →
         (str_lt k1 k2
          ↔ week_start (listing_date r1) < week_start (listing_date r2)))
    ∧ (∀ h mi s us tz,
         week_floor (mk_datetime 2024 1 3 h mi s us tz)
         = Ok (mk_datetime 2024 1 1 0 0 0 0 utc))
    ∧ week_floor (mk_datetime 2024 1 1 0 0 0 0 utc)
      = Ok (mk_datetime 2024 1 1 0 0 0 0 utc).
Proof.
  intros Hvalid.
  destruct (weekly_buckets_spec records Hvalid ∅) as (buckets & Hloop & Hlookup).
  exists (sorted tuple_ltb (map_to_list buckets)).
  split; [unfold summarise_weekly_counts; by rewrite Hloop|].
  rewrite Forall_forall in Hvalid.
  split; [|split; [|split; [|split; [|split]]]].
  - intros r Hr.
    destruct (week_floor_spec _ (Hvalid r Hr))
      as (monday & Hm & _ & _ & Hord & Hwd & Hh & Hmi & Hs & Hus & Htz).
    exists monday. split; [done|].
    split; [unfold week_key; by rewrite Hm|].
    split; [exact Hord|]. split; [|done].
    intros Hutc. unfold utc_week_start.
    rewrite Hord, (utc_ordinal_toordinal (listing_date r)); [done|].
    split; [by apply Hvalid|done].
  - intros key n. rewrite sorted_Permutation, elem_of_map_to_list, Hlookup.
    rewrite lookup_empty. simpl.
    pose proof (count_week_nonneg key records).
    destruct (Z.eqb_spec (count_week key records) 0) as [Hz|Hz].
    + split; [done|lia].
    + split; [intros [= <-]; lia | by intros [_ ->]].
  - apply sorted_tuples_by_key.
  - intros r1 r2 k1 k2 Hr1 Hr2 Hk1 Hk2.
    destruct (week_key_spec r1 (Hvalid r1 Hr1)) as (m1 & Hm1 & Hk1').
    destruct (week_key_spec r2 (Hvalid r2 Hr2)) as (m2 & Hm2 & Hk2').
    rewrite Hk1 in Hk1'. rewrite Hk2 in Hk2'.
    injection Hk1' as ->. injection Hk2' as ->.
    by apply (week_floor_order _ _ m1 m2 (Hvalid r1 Hr1) (Hvalid r2 Hr2)).
  - intros h mi s us tz. reflexivity.
  - reflexivity.
Qed.

Lemma january_records_utc :
  Forall (λ r, utc_timestamp (listing_date r)) january_records.
Proof.
  repeat constructor; unfold valid_datetime; simpl; vm_compute; congruence.
Defined.

Lemma mixed_records_valid :
  Forall (λ r, valid_datetime (listing_date r)) mixed_records.
Proof.
  repeat constructor; unfold valid_datetime; simpl; vm_compute; congruence.
Defined.

Lemma weekly_counts_contract_witness :
  ∃ out,
    summarise_weekly_counts mixed_records = Ok out
    ∧ out = [("2024-05-13", 2); ("2024-05-20", 1)]
    ∧ StronglySorted (λ a b, str_lt a.1 b.1) out.
Proof.
  destruct (weekly_counts_contract mixed_records mixed_records_valid)
    as (out & Hrun & _ & _ & Hsorted & _).
  exists out. split; [exact Hrun|]. split; [|exact Hsorted].
  assert (Hcomputed : summarise_weekly_counts mixed_records
                      = Ok [("2024-05-13", 2); ("2024-05-20", 1)])
    by (vm_compute; reflexivity).
  rewrite Hcomputed in Hrun. by injection Hrun as <-.
Defined.


(** ** More on the listing collector *)

Section CollectorRequests.

Variable fromisoformat : string → result datetime.
Variable server : string → Z → result response.

Lemma requested_pages_cons_get keyword p evs :
  requested_pages (EvGet keyword p :: evs) = p :: requested_pages evs.
Proof. reflexivity. Qed.

Lemma requested_pages_cons_sleep seconds evs :
  requested_pages (EvSleep seconds :: evs) = requested_pages evs.
Proof. reflexivity. Qed.

(** The loop asks for consecutive pages from the current one, at most one
    per round and none past [max_pages]. *)
Lemma fetch_loop_requests fuel keyword cutoff max_pages :
  ∀ st,
    ∃ n : nat,
      (n ≤ fuel)%nat
      ∧ requested_pages
          (fetch_loop fromisoformat server fuel keyword cutoff max_pages st).1
        = seqZ (page st) (Z.of_nat n)
      ∧ (n = 0%nat ∨ page st + Z.of_nat n - 1 <= max_pages)
      ∧ Forall (event_of keyword)
          (fetch_loop fromisoformat server fuel keyword cutoff max_pages st).1.
Proof.
  induction fuel as [|fuel IH]; intros st.
  - exists 0%nat. simpl. split; [lia|]. split; [done|].
    split; [by left|constructor].
  - cbn -[process_jobs].
    assert (Hone : ∀ r : result (list JobRecord),
              page st <= max_pages →
              ∃ n : nat,
                (n ≤ S fuel)%nat
                ∧ requested_pages ([EvGet keyword (page st)], r).1
                  = seqZ (page st) (Z.of_nat n)
                ∧ (n = 0%nat ∨ page st + Z.of_nat n - 1 <= max_pages)
                ∧ Forall (event_of keyword) ([EvGet keyword (page st)], r).1).
    { intros r Hp. exists 1%nat. split; [lia|]. split; [done|].
      split; [right; lia|]. by repeat constructor. }
    destruct (Z.leb_spec (page st) max_pages) as [Hp|Hp]; cbn -[process_jobs];
      [|exists 0%nat; split; [lia|]; split; [done|];
        split; [by left|constructor]].
    destruct (reached_cutoff st); cbn -[process_jobs];
      [exists 0%nat; split; [lia|]; split; [done|];
       split; [by left|constructor]|].
    destruct (server keyword (page st)) as [resp|e]; [|by apply Hone].
    destruct (raise_for_status resp); [|by apply Hone].
    destruct (data resp) as [|job jobs]; [by apply Hone|].
    destruct (process_jobs fromisoformat cutoff st (job :: jobs))
      as [st'|e] eqn:Hjobs; [|by apply Hone].
    destruct (IH (turn_page st')) as (n & Hn & Hreq & Hmax & Hall).
    apply process_jobs_page in Hjobs as [Hpage _].
    destruct (fetch_loop fromisoformat server fuel keyword cutoff max_pages
                (turn_page st')) as [evs r].
    cbn [fst snd] in *. change (page (turn_page st')) with (page st' + 1) in *.
    exists (S n). split; [lia|].
    split; [|split].
    + rewrite requested_pages_cons_get, requested_pages_cons_sleep, Hreq.
      rewrite (seqZ_cons (page st)) by lia. rewrite Hpage.
      do 2 f_equal; lia.
    + right. destruct Hmax as [->|Hmax]; lia.
    + by repeat constructor.
Qed.

(** No page is asked for after one whose answer ends the pagination. *)
Lemma fetch_loop_last_page fuel keyword cutoff max_pages q :
  ends_pagination (server keyword q) →
  ∀ st p,
    page st <= q →
    p ∈ requested_pages
          (fetch_loop fromisoformat server fuel keyword cutoff max_pages st).1 →
    p <= q.
Proof.
  intros Hend. induction fuel as [|fuel IH]; intros st p Hq.
  - simpl. by intros ?%elem_of_nil.
  - cbn -[process_jobs].
    destruct ((page st <=? max_pages) && negb (reached_cutoff st));
      [|simpl; by intros ?%elem_of_nil].
    assert (Hone : p ∈ [page st] → p <= q)
      by (intros ->%list_elem_of_singleton; done).
    destruct (server keyword (page st)) as [resp|e] eqn:Hserver; [|done].
    destruct (raise_for_status resp) as [[]|e] eqn:Hstatus; [|done].
    destruct (data resp) as [|job jobs] eqn:Hdata; [done|].
    destruct (process_jobs fromisoformat cutoff st (job :: jobs))
      as [st'|e] eqn:Hjobs; [|done].
    apply process_jobs_page in Hjobs as [Hpage _].
    assert (Hlt : page st < q).
    { destruct (Z.eq_dec (page st) q) as [Heq|?]; [|lia]. exfalso.
      rewrite <- Heq, Hserver in Hend. simpl in Hend.
      rewrite Hstatus, Hdata in Hend. by destruct Hend. }
    specialize (IH (turn_page st') p).
    destruct (fetch_loop fromisoformat server fuel keyword cutoff max_pages
                (turn_page st')) as [evs r].
    cbn [fst snd] in *. change (page (turn_page st')) with (page st' + 1) in *.
    rewrite requested_pages_cons_get, requested_pages_cons_sleep.
    rewrite elem_of_cons. intros [->|Hp]; [lia|]. apply IH; [lia|done].
Qed.

(** A list is returned only if every request made was answered, and with
    no error status. *)
Lemma fetch_loop_answered fuel keyword cutoff max_pages :
  ∀ st evs rs p,
    fetch_loop fromisoformat server fuel keyword cutoff max_pages st
    = (evs, Ok rs) →
    p ∈ requested_pages evs →
    ∃ resp, server keyword p = Ok resp ∧ raise_for_status resp = Ok tt.
Proof.
  induction fuel as [|fuel IH]; intros st evs rs p.
  - simpl. intros [= <- _]. by intros ?%elem_of_nil.
  - cbn -[process_jobs].
    destruct ((page st <=? max_pages) && negb (reached_cutoff st));
      [|intros [= <- _]; by intros ?%elem_of_nil].
    destruct (server keyword (page st)) as [resp|e] eqn:Hserver; [|done].
    destruct (raise_for_status resp) as [[]|e] eqn:Hstatus; [|done].
    destruct (data resp) as [|job jobs] eqn:Hdata.
    { intros [= <- _] ->%list_elem_of_singleton. by exists resp. }
    destruct (process_jobs fromisoformat cutoff st (job :: jobs))
      as [st'|e] eqn:Hjobs; [|done].
    destruct (fetch_loop fromisoformat server fuel keyword cutoff max_pages
                (turn_page st')) as [evs' r] eqn:Hloop.
    intros [= <- ->].
    rewrite requested_pages_cons_get, requested_pages_cons_sleep, elem_of_cons.
    intros [->|Hp]; [by exists resp|]. by eapply IH.
Qed.

End CollectorRequests.

(** X1. [fetch_jobs_for_keyword] asks the search endpoint for pages 1, 2,
    3, ... in this order, one request per page, never for a page past
    [max_pages] (none at all when [max_pages] is below 1); every request
    carries the keyword of the call, and every sleep is the request delay. *)
Theorem fetch_jobs_requests_in_order
    (fromisoformat : string → result datetime)
    (server : string → Z → result response)
    now keyword max_age_days max_pages :
  ∃ n : nat,
    Z.of_nat n <= Z.max 0 max_pages
    ∧ requested_pages
        (fetch_jobs_for_keyword fromisoformat server
           now keyword max_age_days max_pages).1
      = seqZ 1 (Z.of_nat n)
    ∧ Forall (event_of keyword)
        (fetch_jobs_for_keyword fromisoformat server
           now keyword max_age_days max_pages).1.
Proof.
  unfold fetch_jobs_for_keyword.
  destruct (sub_days now max_age_days) as [cutoff|e].
  - destruct (fetch_loop_requests fromisoformat server (Z.to_nat max_pages)
                keyword cutoff max_pages start) as (n & Hn & Hreq & _ & Hall).
    exists n. split; [lia|]. done.
  - exists 0%nat. simpl. split; [lia|]. split; [done|constructor].
Qed.

(** X2. Pagination ends at the first page whose answer is an exception, an
    error status or an empty page: no page after it is asked for. *)
Theorem fetch_jobs_stops_at_last_page
    (fromisoformat : string → result datetime)
    (server : string → Z → result response)
    now keyword max_age_days max_pages q p :
  1 <= q →
  ends_pagination (server keyword q) →
  p ∈ requested_pages
        (fetch_jobs_for_keyword fromisoformat server
           now keyword max_age_days max_pages).1 →
  p <= q.
Proof.
  intros Hq Hend. unfold fetch_jobs_for_keyword.
  destruct (sub_days now max_age_days) as [cutoff|e];
    [|simpl; by intros ?%elem_of_nil].
  by apply fetch_loop_last_page.
Qed.

Lemma fetch_jobs_stops_at_last_page_witness :
  Forall (λ p, p <= 3)
    (requested_pages
       (fetch_jobs_for_keyword fromisoformat_basic
          (serve [[recent_listing "1"]; [recent_listing "2"]; [];
                  [recent_listing "4"]])
          sample_now "ai engineer" 90 160).1).
Proof.
  apply Forall_forall. intros p.
  apply (fetch_jobs_stops_at_last_page fromisoformat_basic _ sample_now
           "ai engineer" 90 160 3 p).
  - lia.
  - simpl. right. reflexivity.
Defined.

(** X3. If [fetch_jobs_for_keyword] returns a list, every request it made
    was answered without error status: a failure of the transport or a
    4xx/5xx answer on any page makes the whole call raise, whatever was
    collected before. *)
Theorem fetch_jobs_all_answered
    (fromisoformat : string → result datetime)
    (server : string → Z → result response)
    now keyword max_age_days max_pages evs rs p :
  fetch_jobs_for_keyword fromisoformat server now keyword max_age_days max_pages
  = (evs, Ok rs) →
  p ∈ requested_pages evs →
  ∃ resp, server keyword p = Ok resp ∧ raise_for_status resp = Ok tt.
Proof.
  unfold fetch_jobs_for_keyword.
  destruct (sub_days now max_age_days) as [cutoff|e]; [|done].
  apply fetch_loop_answered.
Qed.

Lemma fetch_jobs_all_answered_witness :
  ∃ resp,
    serve [[recent_listing "1"]; [recent_listing "2"]] "ai engineer" 2 = Ok resp
    ∧ raise_for_status resp = Ok tt.
Proof.
  apply (fetch_jobs_all_answered fromisoformat_basic
           (serve [[recent_listing "1"]; [recent_listing "2"]])
           sample_now "ai engineer" 90 160
           (page_events "ai engineer" 1 2 ++ [EvGet "ai engineer" 3])
           [recent_record "1"; recent_record "2"] 2).
  - vm_compute. reflexivity.
  - vm_compute. repeat constructor.
Defined.

Section CollectorOutput.

Variable fromisoformat : string → result datetime.

(** A listing without identifier or without timestamp leaves the collector
    as it is. *)
Lemma process_job_unusable cutoff st job :
  usable job = false → process_job fromisoformat cutoff st job = Ok st.
Proof.
  unfold usable, process_job, truthy at 1.
  destruct (raw_id job) as [id|]; [|done].
  destruct (String.eqb id ""); simpl; [done|].
  destruct (bool_decide (id ∈ seen_ids st)); [done|].
  by intros ->.
Qed.

(** What one listing adds to the results: nothing, or the one record built
    from it. *)
Lemma process_job_adds cutoff st job st' :
  process_job fromisoformat cutoff st job = Ok st' →
  ∃ new,
    results st' = results st ++ new
    ∧ job_id <$> new `sublist_of` omap raw_id [job]
    ∧ Forall (record_of fromisoformat job) new.
Proof.
  intros H. apply process_job_spec in H as [->|[[_ ->]|(id & raw & dt & H)]].
  - exists []. rewrite app_nil_r. split; [done|].
    split; [apply sublist_nil_l|constructor].
  - exists []. rewrite app_nil_r. split; [done|].
    split; [apply sublist_nil_l|constructor].
  - destruct H as (Hid & _ & Hraw & Hdt & _ & ->).
    exists [make_record job id dt]. split; [done|]. split.
    + simpl. rewrite Hid. done.
    + repeat constructor. by exists id, raw, dt.
Qed.

Lemma process_jobs_adds cutoff jobs :
  ∀ st st',
    process_jobs fromisoformat cutoff st jobs = Ok st' →
    ∃ new,
      results st' = results st ++ new
      ∧ job_id <$> new `sublist_of` omap raw_id jobs
      ∧ Forall (λ r, ∃ job, job ∈ jobs ∧ record_of fromisoformat job r) new.
Proof.
  induction jobs as [|job jobs IH]; intros st st'; cbn [process_jobs].
  - intros [= <-]. exists []. rewrite app_nil_r. split; [done|].
    split; [apply sublist_nil_l|constructor].
  - destruct (process_job fromisoformat cutoff st job) as [st1|e] eqn:Hjob;
      cbn [mbind result_bind]; [|done].
    intros Hrest.
    destruct (process_job_adds _ _ _ _ Hjob) as (new1 & Hres1 & Hsub1 & Hrec1).
    destruct (IH _ _ Hrest) as (new2 & Hres2 & Hsub2 & Hrec2).
    exists (new1 ++ new2). split; [by rewrite Hres2, Hres1, app_assoc|]. split.
    + rewrite fmap_app. change (job :: jobs) with ([job] ++ jobs).
      rewrite omap_app. by apply sublist_app.
    + apply Forall_app. split.
      * eapply Forall_impl; [exact Hrec1|]. intros r Hr. exists job.
        split; [apply list_elem_of_here|done].
      * eapply Forall_impl; [exact Hrec2|]. intros r (job' & Hin & Hr).
        exists job'. split; [by apply list_elem_of_further|done].
Qed.

Variable server : string → Z → result response.

Lemma served_cons keyword p ps resp :
  server keyword p = Ok resp →
  served server keyword (p :: ps) = data resp ++ served server keyword ps.
Proof. intros H. unfold served. simpl. by rewrite H. Qed.

(** What the loop adds to the results comes from the listings of the pages
    it asked for, in the order they were served. *)
Lemma fetch_loop_adds fuel keyword cutoff max_pages :
  ∀ st evs rs,
    fetch_loop fromisoformat server fuel keyword cutoff max_pages st
    = (evs, Ok rs) →
    ∃ new,
      rs = results st ++ new
      ∧ job_id <$> new
        `sublist_of` omap raw_id (served server keyword (requested_pages evs))
      ∧ Forall (λ r, ∃ job,
                  job ∈ served server keyword (requested_pages evs)
                  ∧ record_of fromisoformat job r) new.
Proof.
  assert (Hnone : ∀ st evs,
            ∃ new : list JobRecord,
              results st = results st ++ new
              ∧ job_id <$> new
                `sublist_of` omap raw_id (served server keyword (requested_pages evs))
              ∧ Forall (λ r, ∃ job,
                          job ∈ served server keyword (requested_pages evs)
                          ∧ record_of fromisoformat job r) new).
  { intros st evs. exists []. rewrite app_nil_r. split; [done|].
    split; [apply sublist_nil_l|constructor]. }
  induction fuel as [|fuel IH]; intros st evs rs.
  - simpl. intros [= <- <-]. apply Hnone.
  - cbn -[process_jobs].
    destruct ((page st <=? max_pages) && negb (reached_cutoff st));
      [|intros [= <- <-]; apply Hnone].
    destruct (server keyword (page st)) as [resp|e] eqn:Hserver; [|done].
    destruct (raise_for_status resp) as [[]|e]; [|done].
    destruct (data resp) as [|job jobs] eqn:Hdata;
      [intros [= <- <-]; apply Hnone|].
    destruct (process_jobs fromisoformat cutoff st (job :: jobs))
      as [st'|e] eqn:Hjobs; [|done].
    destruct (fetch_loop fromisoformat server fuel keyword cutoff max_pages
                (turn_page st')) as [evs' r] eqn:Hloop.
    intros [= <- ->].
    destruct (process_jobs_adds _ _ _ _ Hjobs) as (new1 & Hres1 & Hsub1 & Hrec1).
    destruct (IH _ _ _ Hloop) as (new2 & Hres2 & Hsub2 & Hrec2).
    change (results (turn_page st')) with (results st') in Hres2.
    rewrite requested_pages_cons_get, requested_pages_cons_sleep.
    rewrite (served_cons _ _ _ _ Hserver), Hdata.
    exists (new1 ++ new2). split; [by rewrite Hres2, Hres1, app_assoc|]. split.
    + rewrite fmap_app, omap_app. by apply sublist_app.
    + apply Forall_app. split.
      * eapply Forall_impl; [exact Hrec1|]. intros r (job' & Hin & Hr).
        exists job'. split; [|done]. apply elem_of_app. by left.
      * eapply Forall_impl; [exact Hrec2|]. intros r (job' & Hin & Hr).
        exists job'. split; [|done]. apply elem_of_app. by right.
Qed.

End CollectorOutput.

(** X4. The loop over the listings of a page skips a listing that has no
    identifier or no timestamp (absent or empty) without any effect: going
    through a page is the same as going through its other listings. *)
Theorem process_jobs_skips_unusable
    (fromisoformat : string → result datetime) cutoff st jobs :
  process_jobs fromisoformat cutoff st (List.filter usable jobs)
  = process_jobs fromisoformat cutoff st jobs.
Proof.
  revert st. induction jobs as [|job jobs IH]; intros st; [done|].
  simpl List.filter. destruct (usable job) eqn:Hu.
  - simpl. destruct (process_job fromisoformat cutoff st job); simpl; [|done].
    apply IH.
  - simpl. rewrite (process_job_unusable _ _ _ _ Hu). simpl. apply IH.
Qed.

(** X5. The records [fetch_jobs_for_keyword] returns come in the order the
    endpoint served their listings: their identifiers are a subsequence of
    the identifiers of the listings of the pages asked for, and each record
    is the one built from one of these listings. *)
Theorem fetch_jobs_in_served_order
    (fromisoformat : string → result datetime)
    (server : string → Z → result response)
    now keyword max_age_days max_pages evs rs :
  fetch_jobs_for_keyword fromisoformat server now keyword max_age_days max_pages
  = (evs, Ok rs) →
  job_id <$> rs
    `sublist_of` omap raw_id (served server keyword (requested_pages evs))
  ∧ Forall (λ r, ∃ job,
              job ∈ served server keyword (requested_pages evs)
              ∧ record_of fromisoformat job r) rs.
Proof.
  unfold fetch_jobs_for_keyword.
  destruct (sub_days now max_age_days) as [cutoff|e]; [|done].
  intros Hrun.
  destruct (fetch_loop_adds fromisoformat server _ _ _ _ _ _ _ Hrun)
    as (new & -> & Hsub & Hrec).
  done.
Qed.

Lemma fetch_jobs_in_served_order_witness :
  ["1"; "2"; "3"] `sublist_of` ["1"; "2"; "1"; "3"].
Proof.
  destruct (fetch_jobs_in_served_order fromisoformat_basic
              (serve [[recent_listing "1"; recent_listing "2"];
                      [recent_listing "1"; recent_listing "3"]])
              sample_now "ai engineer" 90 2
              (page_events "ai engineer" 1 2)
              [recent_record "1"; recent_record "2"; recent_record "3"])
    as [Hsub _].
  - vm_compute. reflexivity.
  - exact Hsub.
Defined.




(** X7. A listing that gets to the date check with a timestamp
    [fromisoformat] rejects, or with a naive timestamp while the cutoff is
    aware, makes the loop over the page raise ([ValueError] or the like,
    [TypeError]): nothing of the page is returned, unlike for a listing
    without timestamp, which is skipped. *)
Theorem process_jobs_bad_timestamp
    (fromisoformat : string → result datetime) cutoff st pre job post
    st1 id raw :
  process_jobs fromisoformat cutoff st pre = Ok st1 →
  raw_id job = Some id → id ≠ "" → id ∉ seen_ids st1 →
  raw_listingDate job = Some raw → raw ≠ "" →
  (∀ e, iso_to_datetime fromisoformat raw = Raise e →
        process_jobs fromisoformat cutoff st (pre ++ job :: post) = Raise e)
  ∧ (∀ dt off, iso_to_datetime fromisoformat raw = Ok dt →
        tzinfo dt = None → tzinfo cutoff = Some off →
        process_jobs fromisoformat cutoff st (pre ++ job :: post)
        = Raise TypeError).
Proof.
  intros Hpre Hid Hne Hfresh Hraw Hraw_ne.
  assert (Hjob : process_job fromisoformat cutoff st1 job
                 = listing_dt ← iso_to_datetime fromisoformat raw;
                   older ← dt_lt listing_dt cutoff;
                   if older : bool then Ok (mark_cutoff st1)
                   else Ok (keep id (make_record job id listing_dt) st1)).
  { unfold process_job. rewrite Hid, Hraw. simpl.
    destruct (String.eqb_spec id ""); [done|].
    rewrite bool_decide_eq_false_2 by done. simpl.
    destruct (String.eqb_spec raw ""); [done|]. done. }
  split.
  - intros e He. rewrite process_jobs_app, Hpre. simpl.
    rewrite Hjob, He. done.
  - intros dt off Hdt Hnaive Haware. rewrite process_jobs_app, Hpre. simpl.
    rewrite Hjob, Hdt. simpl. unfold dt_lt. rewrite Hnaive, Haware. done.
Qed.

Lemma process_jobs_bad_timestamp_witness :
  process_jobs fromisoformat_basic sample_cutoff start
    ([recent_listing "1"]
       ++ {| raw_id := Some "2"; raw_title := None;
             raw_listingDate := Some "yesterday"; raw_locations := [];
             raw_workTypes := None; raw_companyName := None;
             raw_advertiser_description := None |}
       :: [recent_listing "3"])
  = Raise ValueError.
Proof.
  destruct (process_jobs_bad_timestamp fromisoformat_basic sample_cutoff start
              [recent_listing "1"]
              {| raw_id := Some "2"; raw_title := None;
                 raw_listingDate := Some "yesterday"; raw_locations := [];
                 raw_workTypes := None; raw_companyName := None;
                 raw_advertiser_description := None |}
              [recent_listing "3"]
              (keep "1" (recent_record "1") start) "2" "yesterday")
    as [Hvalue _].
  - vm_compute. reflexivity.
  - reflexivity.
  - done.
  - vm_compute. set_solver.
  - reflexivity.
  - done.
  - apply Hvalue. reflexivity.
Defined.

(** ** More on the weekly aggregator *)

(** X8. [week_floor] maps a datetime object to the Monday on or before its
    date, fewer than seven days back, at 00:00 UTC; and the Monday of a
    week is its own week floor, so [week_floor] applied twice is
    [week_floor] applied once. *)
Theorem week_floor_idempotent (d monday : datetime) :
  valid_datetime d →
  week_floor d = Ok monday →
  toordinal monday <= toordinal d < toordinal monday + 7
  ∧ weekday monday = 0
  ∧ week_floor monday = Ok monday.
Proof.
  intros Hd Hm.
  destruct (week_floor_spec d Hd)
    as (m & Hm' & Hymd & Hv & Hord & Hwd & Hh & Hmi & Hs & Hus & Htz).
  rewrite Hm in Hm'. injection Hm' as <-.
  pose proof (weekday_range d) as Hrange.
  split; [unfold week_start in Hord; lia|]. split; [done|].
  pose proof (week_start_bounds d Hd) as Hws.
  unfold week_floor, sub_days. rewrite Hwd, Z.sub_0_r, Hord.
  destruct (Z.ltb_spec 0 (week_start d)); [|lia].
  destruct (Z.leb_spec (week_start d) MAXORDINAL); [|lia]. simpl.
  rewrite <- Hymd. simpl.
  destruct monday as [y mo dd h mi s us tz]. simpl in *. by subst.
Qed.

Lemma week_floor_idempotent_witness :
  week_floor (mk_datetime 2024 2 26 0 0 0 0 utc)
  = Ok (mk_datetime 2024 2 26 0 0 0 0 utc).
Proof.
  destruct (week_floor_idempotent (mk_datetime 2024 3 1 18 45 10 0 (Some 36000000000))
              (mk_datetime 2024 2 26 0 0 0 0 utc)) as (_ & _ & Hfix).
  - unfold valid_datetime. simpl. vm_compute. repeat split; congruence.
  - reflexivity.
  - exact Hfix.
Defined.

(** X9. Two records are counted in the same bucket exactly when their
    dates fall in the same Monday-to-Sunday week: the week keys of two
    datetime objects are equal if and only if their weeks start on the same
    day. *)
Theorem week_key_same_week (r1 r2 : JobRecord) :
  valid_datetime (listing_date r1) → valid_datetime (listing_date r2) →
  (week_key r1 = week_key r2
   ↔ week_start (listing_date r1) = week_start (listing_date r2)).
Proof.
  intros Hv1 Hv2.
  destruct (week_key_spec r1 Hv1) as (m1 & Hm1 & Hk1).
  destruct (week_key_spec r2 Hv2) as (m2 & Hm2 & Hk2).
  rewrite Hk1, Hk2.
  destruct (week_floor_order _ _ m1 m2 Hv1 Hv2 Hm1 Hm2) as [_ Heq].
  rewrite <- Heq. split; [by intros [= ->]|by intros ->].
Qed.

Lemma week_key_same_week_witness :
  week_key (record_at "1" (mk_datetime 2024 1 1 0 0 0 0 utc))
  = week_key (record_at "2" (mk_datetime 2024 1 7 23 59 59 0 utc)).
Proof.
  apply (week_key_same_week (record_at "1" (mk_datetime 2024 1 1 0 0 0 0 utc))
           (record_at "2" (mk_datetime 2024 1 7 23 59 59 0 utc))).
  - unfold valid_datetime. simpl. vm_compute. repeat split; congruence.
  - unfold valid_datetime. simpl. vm_compute. repeat split; congruence.
  - reflexivity.
Defined.

Lemma sum_counts_Permutation l1 l2 : l1 ≡ₚ l2 → sum_counts l1 = sum_counts l2.
Proof.
  unfold sum_counts. induction 1 as [|x l1 l2 _ IH|x y l|l1 l2 l3 _ IH1 _ IH2];
    simpl; lia.
Qed.

Lemma sum_counts_counter_incr key (counts : gmap string Z) :
  sum_counts (map_to_list (counter_incr key counts))
  = sum_counts (map_to_list counts) + 1.
Proof.
  unfold counter_incr. destruct (counts !! key) as [n|] eqn:Hkey; simpl.
  - rewrite <- (insert_delete_eq counts key (n + 1)).
    rewrite (sum_counts_Permutation _ _ (map_to_list_insert (delete key counts) key
                                      (n + 1) (lookup_delete_eq _ _))).
    rewrite <- (sum_counts_Permutation _ _ (map_to_list_delete counts key n Hkey)).
    unfold sum_counts. simpl. lia.
  - rewrite (sum_counts_Permutation _ _ (map_to_list_insert counts key (0 + 1) Hkey)).
    unfold sum_counts. simpl. lia.
Qed.

Lemma weekly_buckets_total records :
  ∀ buckets buckets',
    weekly_buckets buckets records = Ok buckets' →
    sum_counts (map_to_list buckets')
    = sum_counts (map_to_list buckets) + Z.of_nat (length records).
Proof.
  induction records as [|r rest IH]; intros buckets buckets'; simpl.
  - intros [= <-]. lia.
  - destruct (week_key r) as [key|e]; simpl; [|done].
    intros Hrest. rewrite (IH _ _ Hrest), sum_counts_counter_incr. lia.
Qed.

(** X10. [summarise_weekly_counts] loses and invents no record: whenever
    it returns, the counts of its buckets add up to the number of records
    it was given. *)
Theorem weekly_counts_total (records : list JobRecord) out :
  summarise_weekly_counts records = Ok out →
  sum_counts out = Z.of_nat (length records).
Proof.
  unfold summarise_weekly_counts.
  destruct (weekly_buckets ∅ records) as [buckets|e] eqn:Hloop; simpl; [|done].
  intros [= <-]. rewrite (sum_counts_Permutation _ _ (sorted_Permutation _ _)).
  rewrite (weekly_buckets_total _ _ _ Hloop), map_to_list_empty. done.
Qed.

Lemma weekly_counts_total_witness :
  sum_counts [("2024-01-01", 2); ("2024-01-08", 1)] = 3.
Proof.
  apply (weekly_counts_total january_records).
  vm_compute. reflexivity.
Defined.

Lemma count_week_Permutation key l1 l2 :
  l1 ≡ₚ l2 → count_week key l1 = count_week key l2.
Proof.
  unfold count_week. intros H. f_equal.
  induction H as [|x l1 l2 _ IH|x y l|l1 l2 l3 _ IH1 _ IH2]; simpl.
  - done.
  - destruct (match week_key x with Ok k => _ | Raise _ => _ end); simpl; lia.
  - destruct (match week_key x with Ok k => _ | Raise _ => _ end);
      destruct (match week_key y with Ok k => _ | Raise _ => _ end); simpl; lia.
  - lia.
Qed.

(** X11. The weekly counts do not depend on the order of the records: two
    lists of datetime-carrying records that are permutations of each other
    give the same output. *)
Theorem weekly_counts_order_independent (records records' : list JobRecord) :
  Forall (λ r, valid_datetime (listing_date r)) records →
  records ≡ₚ records' →
  summarise_weekly_counts records' = summarise_weekly_counts records.
Proof.
  intros Hvalid Hperm.
  assert (Hvalid' : Forall (λ r, valid_datetime (listing_date r)) records')
    by (by rewrite <- Hperm).
  destruct (weekly_buckets_spec records Hvalid ∅) as (b & Hb & Hlookup).
  destruct (weekly_buckets_spec records' Hvalid' ∅) as (b' & Hb' & Hlookup').
  unfold summarise_weekly_counts. rewrite Hb, Hb'. simpl. do 3 f_equal.
  apply map_eq. intros key.
  by rewrite Hlookup, Hlookup', (count_week_Permutation key _ _ Hperm).
Qed.

Lemma weekly_counts_order_independent_witness :
  summarise_weekly_counts (reverse january_records)
  = summarise_weekly_counts january_records.
Proof.
  apply weekly_counts_order_independent.
  - eapply Forall_impl; [exact january_records_utc|]. by intros r [? _].
  - apply Permutation_sym, reverse_Permutation.
Defined.

(** ** More on the skill extractor *)

Lemma counter_incr_lookup key (counts : gmap string Z) k :
  counter_incr key counts !! k
  = if decide (k = key) then Some (default 0 (counts !! k) + 1)
    else counts !! k.
Proof.
  unfold counter_incr. case_decide as Hk.
  - subst. by rewrite lookup_insert_eq.
  - by rewrite lookup_insert_ne.
Qed.

(** Counting once each label of a list without repetition. *)
Lemma foldr_counter_incr_lookup keys (counts : gmap string Z) k :
  NoDup keys →
  foldr counter_incr counts keys !! k
  = if decide (k ∈ keys) then Some (default 0 (counts !! k) + 1)
    else counts !! k.
Proof.
  induction 1 as [|key keys Hnotin Hnd IH]; cbn [foldr].
  - rewrite decide_False; [done|]. by intros ?%elem_of_nil.
  - rewrite counter_incr_lookup, IH.
    destruct (decide (k = key)) as [->|Hne].
    + rewrite decide_False by done.
      rewrite decide_True by apply list_elem_of_here. done.
    + destruct (decide (k ∈ keys)) as [Hin|Hin].
      * rewrite decide_True by (by apply list_elem_of_further). done.
      * rewrite decide_False; [done|].
        intros [?|?]%elem_of_cons; done.
Qed.

Section SkillCounts.

Variable re_search : string → string → bool.

Lemma documents_with_cons label r rest :
  documents_with re_search label (r :: rest)
  = (if truthy (description_text r)
        && bool_decide (label ∈ extract_skills re_search
                                  (default "" (description_text r)))
     then 1 else 0)
    + documents_with re_search label rest.
Proof.
  unfold documents_with. cbn [List.filter].
  destruct (truthy (description_text r) && _); cbn [length]; lia.
Qed.

Lemma documents_with_nonneg label records :
  0 <= documents_with re_search label records.
Proof. unfold documents_with. lia. Qed.

(** The loop of [compute_skill_frequencies] adds to the count of each
    label the number of described records in which it is found. *)
Lemma skill_counts_lookup records :
  ∀ counts label,
    skill_counts re_search counts records !! label
    = if documents_with re_search label records =? 0 then counts !! label
      else Some (default 0 (counts !! label)
                 + documents_with re_search label records).
Proof.
  induction records as [|r rest IH]; intros counts label.
  - done.
  - rewrite documents_with_cons. cbn [skill_counts].
    pose proof (documents_with_nonneg label rest) as Hnn.
    destruct (truthy (description_text r)); cbn [andb].
    + rewrite IH, foldr_counter_incr_lookup by apply NoDup_elements.
      generalize (extract_skills re_search (default "" (description_text r))).
      intros hits.
      destruct (decide (label ∈ elements hits)) as [Hin|Hin].
      * rewrite bool_decide_eq_true_2 by (by apply elem_of_elements).
        destruct (Z.eqb_spec (documents_with re_search label rest) 0) as [Hz|Hz];
          destruct (Z.eqb_spec (1 + documents_with re_search label rest) 0);
          try lia.
        -- by rewrite Hz, Z.add_0_r.
        -- cbn [default]. by rewrite Z.add_assoc.
      * rewrite bool_decide_eq_false_2
          by (intros ?; by apply Hin, elem_of_elements).
        by replace (0 + documents_with re_search label rest)
          with (documents_with re_search label rest) by lia.
    + rewrite IH.
      by replace (0 + documents_with re_search label rest)
        with (documents_with re_search label rest) by lia.
Qed.

End SkillCounts.

(** X12. The frequency [compute_skill_frequencies] gives a label is the
    number of records with a description in which the label is found at
    least once (each such record counts once, however often the pattern
    matches, and a record without description counts for nothing); a label
    found in no record has no entry. *)
Theorem skill_frequency_counts_documents
    (re_search : string → string → bool) (records : list JobRecord)
    (label : string) (n : Z) :
  (label, n) ∈ compute_skill_frequencies re_search records
  ↔ 0 < n ∧ n = documents_with re_search label records.
Proof.
  unfold compute_skill_frequencies, sort_by_frequency.
  rewrite sorted_Permutation, elem_of_map_to_list, skill_counts_lookup.
  rewrite lookup_empty. cbn [default].
  pose proof (documents_with_nonneg re_search label records).
  destruct (Z.eqb_spec (documents_with re_search label records) 0) as [Hz|Hz].
  - split; [done|lia].
  - split; [intros [= <-]; lia | by intros [_ ->]].
Qed.

Lemma normalise_markdown_words text :
  split (normalise_markdown text) = lower <$> split text.
Proof.
  unfold normalise_markdown. rewrite split_lower, split_join; [done|].
  apply Forall_fmap. eapply Forall_impl; [apply split_words|].
  intros w Hw. by apply is_word_lower.
Qed.

(** X13. [normalise_markdown] keeps the words of the text, in order and in
    lower case, and nothing else: splitting its result gives the
    lower-cased words of the text, and the result is already in lower
    case. In particular a text of whitespace only normalises to the empty
    string. *)
Theorem normalise_markdown_keeps_words (text : string) :
  split (normalise_markdown text) = lower <$> split text
  ∧ lower (normalise_markdown text) = normalise_markdown text
  ∧ (strip_nonempty text = false → normalise_markdown text = "").
Proof.
  split; [apply normalise_markdown_words|]. split.
  - unfold normalise_markdown. rewrite split_lower, lower_join.
    rewrite <- list_fmap_compose.
    by rewrite (list_fmap_ext (lower ∘ lower) lower)
      by (intros; apply lower_idem).
  - intros Hblank. unfold normalise_markdown. rewrite split_lower.
    assert (Hsplit : ∀ s, strip_nonempty s = false → split_from "" s = []).
    { induction s as [|c s IH]; simpl; [done|].
      intros [Hc Hs]%orb_false_elim. apply negb_false_iff in Hc.
      rewrite Hc. simpl. by apply IH. }
    unfold split. by rewrite (Hsplit text Hblank).
Qed.

Lemma normalise_markdown_keeps_words_witness :
  normalise_markdown (String (ascii_of_nat 10) "  " +:+ String (ascii_of_nat 9) "")
  = "".
Proof.
  destruct (normalise_markdown_keeps_words
              (String (ascii_of_nat 10) "  " +:+ String (ascii_of_nat 9) ""))
    as (_ & _ & Hblank).
  apply Hblank. reflexivity.
Defined.

(** X14. [extract_skills] sees a text only through its normal form: texts
    that differ in letter case or in the whitespace between their words
    give the same set of labels, and a text gives the same set as its
    normal form. *)
Theorem extract_skills_normal_form
    (re_search : string → string → bool) (text text' : string) :
  extract_skills re_search (normalise_markdown text)
  = extract_skills re_search text
  ∧ (lower <$> split text = lower <$> split text' →
     extract_skills re_search text = extract_skills re_search text').
Proof.
  assert (Hform : ∀ t, normalise_markdown t = join " " (lower <$> split t)).
  { intros t. unfold normalise_markdown. by rewrite split_lower. }
  split.
  - unfold extract_skills. f_equal.
    rewrite (Hform (normalise_markdown text)), normalise_markdown_words.
    rewrite <- list_fmap_compose.
    rewrite (list_fmap_ext (lower ∘ lower) lower) by (intros; apply lower_idem).
    by rewrite Hform.
  - intros Hwords. unfold extract_skills. by rewrite !Hform, Hwords.
Qed.

Lemma extract_skills_normal_form_witness :
  extract_skills (λ _ _, true) ("Python  AND" +:+ String (ascii_of_nat 10) "aws")
  = extract_skills (λ _ _, true) "python and AWS".
Proof.
  destruct (extract_skills_normal_form (λ _ _, true)
              ("Python  AND" +:+ String (ascii_of_nat 10) "aws")
              "python and AWS") as [_ Hsame].
  apply Hsame. reflexivity.
Defined.

(** ** More on the detail cache filler *)

Section CacheFillerMore.

Variable network : nat → string → outcome.

Lemma exists_mono p w w' :
  files w ⊆ files w' → exists_ p w = true → exists_ p w' = true.
Proof.
  intros Hsub Hin. unfold exists_ in *.
  apply bool_decide_eq_true in Hin. apply bool_decide_eq_true.
  apply subseteq_dom in Hsub. set_solver.
Qed.

Lemma uncached_mono jobs w w' :
  files w ⊆ files w' →
  (length (uncached jobs w') ≤ length (uncached jobs w))%nat.
Proof.
  intros Hsub. unfold uncached.
  induction jobs as [|id jobs IH]; cbn [List.filter]; [done|].
  destruct (exists_ (detail_path id) w) eqn:Hw.
  - rewrite (exists_mono _ _ _ Hsub Hw). done.
  - destruct (exists_ (detail_path id) w'); cbn [negb length]; lia.
Qed.

(** Going through one identifier: at most [MAX_ATTEMPTS] requests, and
    none if it has its cache file; a file appears only for a cacheable
    answer to one of the requests, with its body as content. *)
Lemma cache_one_requests idx total job_id w :
  ∃ delta,
    log (cache_one network idx total job_id w) = log w ++ delta
    ∧ (length (requests delta)
       ≤ if exists_ (detail_path job_id) w then 0 else 4)%nat
    ∧ (files (cache_one network idx total job_id w) = files w
       ∨ ∃ (k : nat) text,
           network k (JOB_DETAIL_URL job_id) = Responded 200 text
           ∧ strip_nonempty text = true
           ∧ files (cache_one network idx total job_id w)
             = <[detail_path job_id := text]> (files w))
    ∧ ((∀ k url, cacheable (network k url) = true) →
       detail_path job_id ∈ dom (files (cache_one network idx total job_id w))
       ∧ backoffs delta = 0%nat).
Proof.
  unfold cache_one. destruct (exists_ (detail_path job_id) w) eqn:Hexists.
  - exists []. rewrite app_nil_r. split; [done|]. split; [done|].
    split; [by left|]. intros _. split; [|done].
    unfold exists_ in Hexists. by apply bool_decide_eq_true in Hexists.
  - destruct (attempt_loop_spec network idx total job_id (Z.to_nat MAX_ATTEMPTS) 0 w)
      as (delta & Hlog & Hreq & Hback & _ & Hfiles); [done|].
    exists delta. split; [done|].
    split; [rewrite Hreq, length_replicate; change (Z.to_nat MAX_ATTEMPTS) with 4%nat; lia|].
    split.
    + destruct (network _ _) as [|status text] eqn:Hout; [left; tauto|].
      destruct (bool_decide _ && cacheable _) eqn:Hc; [|left; tauto].
      apply andb_prop in Hc as [_ Hc]. simpl in Hc.
      apply andb_prop in Hc as [->%Z.eqb_eq Htext].
      right. eexists _, text. split; [exact Hout|]. split; [done|]. tauto.
    + intros Hhealthy.
      assert (Hzero : leading_retryable network (requests_made w)
                        (JOB_DETAIL_URL job_id) (Z.to_nat MAX_ATTEMPTS) = 0%nat).
      { change (Z.to_nat MAX_ATTEMPTS) with 4%nat. cbn [leading_retryable].
        by rewrite (cacheable_not_retryable _ (Hhealthy _ _)). }
      rewrite Hzero in Hback, Hfiles. split; [|done].
      pose proof (Hhealthy (requests_made w + 0)%nat (JOB_DETAIL_URL job_id)) as Hc.
      destruct (network _ _) as [|status text]; [done|].
      rewrite Hc in Hfiles. rewrite bool_decide_eq_true_2 in Hfiles
        by (change (Z.to_nat MAX_ATTEMPTS) with 4%nat; lia).
      destruct Hfiles as [-> _]. rewrite dom_insert_L. set_solver.
Qed.

Lemma cache_loop_requests jobs :
  ∀ idx total w,
    ∃ delta,
      log (cache_loop network idx total jobs w) = log w ++ delta
      ∧ (length (requests delta) ≤ 4 * length (uncached jobs w))%nat
      ∧ (∀ p c,
           files (cache_loop network idx total jobs w) !! p = Some c →
           files w !! p = Some c
           ∨ ∃ id (k : nat),
               id ∈ jobs ∧ p = detail_path id
               ∧ network k (JOB_DETAIL_URL id) = Responded 200 c
               ∧ strip_nonempty c = true)
      ∧ ((∀ k url, cacheable (network k url) = true) →
         (∀ id, id ∈ jobs →
                detail_path id ∈ dom (files (cache_loop network idx total jobs w)))
         ∧ backoffs delta = 0%nat).
Proof.
  induction jobs as [|job_id jobs IH]; intros idx total w.
  - exists []. simpl. rewrite app_nil_r. split; [done|]. split; [lia|].
    split; [by left|]. intros _. split; [|done]. by intros id ?%elem_of_nil.
  - cbn [cache_loop].
    destruct (cache_one_requests idx total job_id w)
      as (d1 & Hlog1 & Hlen1 & Hfiles1 & Hhealthy1).
    destruct (cache_one_spec network idx total job_id w)
      as (d1' & Hlog1' & Hsub1 & _).
    destruct (IH (idx + 1) total (cache_one network idx total job_id w))
      as (d2 & Hlog2 & Hlen2 & Hfiles2 & Hhealthy2).
    destruct (cache_loop_spec network jobs (idx + 1) total
                (cache_one network idx total job_id w))
      as (d2' & _ & Hsub2 & _).
    exists (d1 ++ d2). split; [by rewrite Hlog2, Hlog1, app_assoc|].
    split; [|split].
    + rewrite requests_app, length_app.
      pose proof (uncached_mono jobs w _ Hsub1) as Hmono.
      change (uncached (job_id :: jobs) w)
        with (if negb (exists_ (detail_path job_id) w)
              then job_id :: uncached jobs w else uncached jobs w).
      destruct (exists_ (detail_path job_id) w); cbn [negb length]; lia.
    + intros p c Hp. destruct (Hfiles2 p c Hp) as [Hold|(id & k & Hin & Hrest)].
      * destruct Hfiles1 as [Hsame|(k & text & Hnet & Htext & Hins)].
        -- left. by rewrite <- Hsame.
        -- rewrite Hins in Hold.
           destruct (decide (p = detail_path job_id)) as [->|Hne].
           ++ rewrite lookup_insert_eq in Hold. injection Hold as <-.
              right. exists job_id, k.
              split; [apply list_elem_of_here|done].
           ++ rewrite lookup_insert_ne in Hold by done. by left.
      * right. exists id, k. split; [by apply list_elem_of_further|done].
    + intros Hhealthy.
      destruct (Hhealthy1 Hhealthy) as [Hdom1 Hback1].
      destruct (Hhealthy2 Hhealthy) as [Hdom2 Hback2].
      split; [|by rewrite backoffs_app, Hback1, Hback2].
      intros id [->|Hin]%elem_of_cons; [|by apply Hdom2].
      eapply subseteq_dom in Hsub2. set_solver.
Qed.

End CacheFillerMore.

(** X15. A run of [cache_details] makes at most [MAX_ATTEMPTS] = 4 requests
    for each identifier of the listing that has no cache file when the run
    starts (the number the script prints first), and none for the others. *)
Theorem cache_details_request_bound (network : nat → string → outcome)
    jobs w w' :
  cache_details network (Some jobs) w = Ok w' →
  ∃ delta,
    log w' = log w ++ delta
    ∧ (length (requests delta) ≤ 4 * length (uncached jobs w))%nat
    ∧ head delta = Some (Print (MsgRemaining (Z.of_nat (length (uncached jobs w))))).
Proof.
  unfold cache_details. intros [= <-].
  set (p0 := Print (MsgRemaining _)).
  destruct (cache_loop_requests network jobs 1 (Z.of_nat (length jobs)) (act p0 w))
    as (delta & Hlog & Hlen & _).
  exists (p0 :: delta). split; [rewrite Hlog; simpl; by rewrite <- app_assoc|].
  split; [|done].
  change (requests (p0 :: delta)) with (requests delta). exact Hlen.
Qed.

Lemma cache_details_request_bound_witness :
  ∃ delta,
    log (cache_loop sample_network 1 2 ["123"; "456"]
           (act (Print (MsgRemaining 2)) empty_world)) = delta
    ∧ (length (requests delta) ≤ 8)%nat.
Proof.
  destruct (cache_details_request_bound sample_network ["123"; "456"]
              empty_world _ eq_refl) as (delta & Hlog & Hlen & _).
  exists delta. split; [exact Hlog|]. exact Hlen.
Defined.



(** X17. When the network answers every request with a cacheable response
    (status 200, body not blank), one run of [cache_details] leaves every
    identifier of the listing with its cache file, and never sleeps the
    backoff. *)
Theorem cache_details_healthy_network (network : nat → string → outcome)
    jobs w w' :
  (∀ k url, cacheable (network k url) = true) →
  cache_details network (Some jobs) w = Ok w' →
  (∀ id, id ∈ jobs → detail_path id ∈ dom (files w'))
  ∧ ∃ delta, log w' = log w ++ delta ∧ backoffs delta = 0%nat.
Proof.
  intros Hhealthy. unfold cache_details. intros [= <-].
  set (p0 := Print (MsgRemaining _)).
  destruct (cache_loop_requests network jobs 1 (Z.of_nat (length jobs)) (act p0 w))
    as (delta & Hlog & _ & _ & Hall).
  destruct (Hall Hhealthy) as [Hdom Hback].
  split; [done|]. exists (p0 :: delta).
  split; [rewrite Hlog; simpl; by rewrite <- app_assoc|]. exact Hback.
Qed.

Lemma cache_details_healthy_network_witness :
  detail_path "456"
  ∈ dom (files (cache_loop (λ _ _, Responded 200 "# AI Engineer") 1 2
                  ["123"; "456"]
                  (act (Print (MsgRemaining 2)) empty_world))).
Proof.
  destruct (cache_details_healthy_network (λ _ _, Responded 200 "# AI Engineer")
              ["123"; "456"] empty_world
              (cache_loop (λ _ _, Responded 200 "# AI Engineer") 1 2
                 ["123"; "456"] (act (Print (MsgRemaining 2)) empty_world)))
    as [Hall _].
  - intros k url. reflexivity.
  - reflexivity.
  - apply Hall. repeat constructor.
Defined.

(** ** The two scripts on the same answer *)

(** X18. The two scripts agree on what is worth caching: when the first
    answer for an identifier without cache file is one for which
    [fetch_job_markdown] returns a text, [cache_details] writes exactly
    this text to the cache file of the identifier, after a single
    request. *)
Theorem cache_one_agrees_with_fetch_job_markdown
    (network : nat → string → outcome) idx total job_id w text :
  exists_ (detail_path job_id) w = false →
  fetch_job_markdown (network (requests_made w) (JOB_DETAIL_URL job_id))
  = Some text →
  files (cache_one network idx total job_id w)
  = <[detail_path job_id := text]> (files w)
  ∧ requests_made (cache_one network idx total job_id w)
    = S (requests_made w).
Proof.
  intros Hnew Hfetch. unfold cache_one. rewrite Hnew.
  destruct (network (requests_made w) (JOB_DETAIL_URL job_id))
    as [|status body] eqn:Hout; [done|].
  simpl in Hfetch.
  destruct ((status =? 200) && strip_nonempty body) eqn:Hok; [|done].
  injection Hfetch as ->.
  change (Z.to_nat MAX_ATTEMPTS) with 4%nat. cbn [attempt_loop].
  change (0 <? MAX_ATTEMPTS) with true. cbv iota. rewrite Hout, Hok.
  split.
  - by destruct (idx mod 20 =? 0).
  - destruct (idx mod 20 =? 0);
      rewrite !requests_made_act, ?requests_made_write, ?requests_made_act;
      simpl; lia.
Qed.

Lemma cache_one_agrees_with_fetch_job_markdown_witness :
  files (cache_one (λ _ _, Responded 200 "# AI Engineer") 1 1 "123" empty_world)
  = <[detail_path "123" := "# AI Engineer"]> ∅.
Proof.
  apply (cache_one_agrees_with_fetch_job_markdown
           (λ _ _, Responded 200 "# AI Engineer") 1 1 "123" empty_world
           "# AI Engineer"); reflexivity.
Defined.

(** ** A network that never serves *)

Section DeadNetwork.

Variable network : nat → string → outcome.
Hypothesis Hdead : ∀ k url, retryable (network k url) = true.




End DeadNetwork.



(** ** The records of the collector *)

Lemma or_None_nonempty s : or_None s ≠ Some "".
Proof.
  unfold or_None. destruct (String.eqb_spec s "") as [->|Hne]; [done|].
  by intros [= ->].
Qed.

Section CollectorRecords.

Variable fromisoformat : string → result datetime.
Variable server : string → Z → result response.

Lemma process_job_well_formed cutoff st job st' :
  Forall well_formed (results st) →
  process_job fromisoformat cutoff st job = Ok st' →
  Forall well_formed (results st').
Proof.
  intros Hwf. unfold process_job.
  destruct (raw_id job) as [id|]; [|by intros [= <-]].
  destruct (String.eqb_spec id "") as [->|Hne]; simpl; [by intros [= <-]|].
  destruct (bool_decide (id ∈ seen_ids st)); simpl; [by intros [= <-]|].
  destruct (negb (truthy (raw_listingDate job))); [by intros [= <-]|].
  unfold mbind, result_bind.
  destruct (iso_to_datetime fromisoformat _) as [dt|e]; [|done].
  destruct (dt_lt dt cutoff) as [[|]|e]; [| |done]; intros [= <-]; [done|].
  simpl. apply Forall_app. split; [done|].
  constructor; [|constructor]. split; [done|].
  split; [apply or_None_nonempty|]. split; [apply or_None_nonempty|done].
Qed.

Lemma process_jobs_well_formed cutoff jobs :
  ∀ st st',
    Forall well_formed (results st) →
    process_jobs fromisoformat cutoff st jobs = Ok st' →
    Forall well_formed (results st').
Proof.
  induction jobs as [|job jobs IH]; intros st st' Hwf; cbn [process_jobs].
  - by intros [= <-].
  - destruct (process_job fromisoformat cutoff st job) as [st1|e] eqn:Hjob;
      cbn [mbind result_bind]; [|done].
    apply IH. by eapply process_job_well_formed.
Qed.

Lemma fetch_loop_well_formed fuel keyword cutoff max_pages :
  ∀ st evs rs,
    Forall well_formed (results st) →
    fetch_loop fromisoformat server fuel keyword cutoff max_pages st
    = (evs, Ok rs) →
    Forall well_formed rs.
Proof.
  induction fuel as [|fuel IH]; intros st evs rs Hwf.
  - simpl. by intros [= _ <-].
  - cbn -[process_jobs].
    destruct ((page st <=? max_pages) && negb (reached_cutoff st));
      [|by intros [= _ <-]].
    destruct (server keyword (page st)) as [resp|e]; [|done].
    destruct (raise_for_status resp) as [[]|e]; [|done].
    destruct (data resp) as [|job jobs]; [by intros [= _ <-]|].
    destruct (process_jobs fromisoformat cutoff st (job :: jobs))
      as [st'|e] eqn:Hjobs; [|done].
    destruct (fetch_loop fromisoformat server fuel keyword cutoff max_pages
                (turn_page st')) as [evs' r] eqn:Hloop.
    intros [= _ ->]. eapply IH; [|exact Hloop].
    change (results (turn_page st')) with (results st').
    by eapply process_jobs_well_formed.
Qed.

End CollectorRecords.

(** X20. Every record [fetch_jobs_for_keyword] returns has an identifier
    that is not empty, a location and a work type that are either absent
    or not empty (an empty join becomes [None]), and no description text
    yet. *)
Theorem fetch_jobs_records_well_formed
    (fromisoformat : string → result datetime)
    (server : string → Z → result response)
    now keyword max_age_days max_pages evs rs :
  fetch_jobs_for_keyword fromisoformat server now keyword max_age_days max_pages
  = (evs, Ok rs) →
  Forall well_formed rs.
Proof.
  unfold fetch_jobs_for_keyword.
  destruct (sub_days now max_age_days) as [cutoff|e]; [|done].
  apply fetch_loop_well_formed. constructor.
Qed.

Lemma fetch_jobs_records_well_formed_witness :
  Forall well_formed [recent_record "1"; recent_record "2"; recent_record "3"].
Proof.
  apply (fetch_jobs_records_well_formed fromisoformat_basic
           (serve [[recent_listing "1"; recent_listing "2"];
                   [recent_listing "1"; recent_listing "3"]])
           sample_now "ai engineer" 90 2
           (page_events "ai engineer" 1 2)).
  vm_compute. reflexivity.
Defined.
